(** * interviewai: the prompt relay and the recording session

    A shallow embedding of the two programs of the repository:

    - [Relay]: the route handler [POST] of
      [src/app/api/generate-prompt/route.ts];
    - [Session]: the component [RecordingPage] of the page source
      (its hooks, the effect of its mount, and the handlers
      [startRecording], [stopRecording], [onresult],
      [ondataavailable]).

    JavaScript values are modelled as far as the code inspects them:
    strings are sequences of UTF-16 code units, a parsed JSON document is
    an inductive value, a rejected promise or a thrown exception is the
    left injection of a sum. *)

From Stdlib Require Import List NArith Arith Bool Lia.
From Stdlib Require Import Strings.Ascii Init.Byte.
From Stdlib Require Strings.String.
Import String.StringSyntax.
Delimit Scope string_scope with string.
From Stdlib Require Import Floats.SpecFloat.
From Equations Require Import Equations.
Import ListNotations.

Set Warnings "-register-all".

(* ===================================================================== *)
(** ** JavaScript values *)
(* ===================================================================== *)

Module JS.

(** A JavaScript string is a sequence of 16-bit code units. *)
Definition code_unit := N.
Definition jsstring := list code_unit.

(** An ASCII literal of the source, as code units. *)
Fixpoint lit (s : String.string) : jsstring :=
  match s with
  | String.EmptyString => []
  | String.String c rest => N_of_ascii c :: lit rest
  end.
Arguments lit s%_string.

(** The double quote, U+0022. *)
Definition dquote : jsstring := [34%N].

Definition jsstring_eqb (a b : jsstring) : bool :=
  if list_eq_dec N.eq_dec a b then true else false.

(** ECMAScript WhiteSpace and LineTerminator code points: the set that
    [String.prototype.trim] strips.  All of them lie in the basic plane,
    so the test is on one code unit. *)
Definition isWhiteSpace (c : code_unit) : bool :=
  ((9 <=? c) && (c <=? 13)              (* TAB, LF, VT, FF, CR *)
   || (c =? 32)                         (* SPACE *)
   || (c =? 160)                        (* NO-BREAK SPACE *)
   || (c =? 5760)                       (* OGHAM SPACE MARK *)
   || ((8192 <=? c) && (c <=? 8202))    (* EN QUAD .. HAIR SPACE *)
   || (c =? 8232) || (c =? 8233)        (* LINE / PARAGRAPH SEPARATOR *)
   || (c =? 8239)                       (* NARROW NO-BREAK SPACE *)
   || (c =? 8287)                       (* MEDIUM MATHEMATICAL SPACE *)
   || (c =? 12288)                      (* IDEOGRAPHIC SPACE *)
   || (c =? 65279))%N.                  (* ZERO WIDTH NO-BREAK SPACE *)

Fixpoint trimStart (s : jsstring) : jsstring :=
  match s with
  | [] => []
  | c :: rest => if isWhiteSpace c then trimStart rest else s
  end.

Definition trimEnd (s : jsstring) : jsstring := rev (trimStart (rev s)).

(** [s.trim()] *)
Definition trim (s : jsstring) : jsstring := trimEnd (trimStart s).

(** A value produced by [JSON.parse].  The members of an object are kept
    in document order. *)
Inductive json : Type :=
| JNull
| JBool (b : bool)
| JNumber (x : spec_float)
| JString (s : jsstring)
| JArray (items : list json)
| JObject (members : list (jsstring * json)).

(** The member [JSON.parse] keeps under key [k]: the last one written. *)
Fixpoint lookup_member (k : jsstring) (members : list (jsstring * json))
  : option json :=
  match members with
  | [] => None
  | (k', v) :: rest =>
      match lookup_member k rest with
      | Some later => Some later
      | None => if jsstring_eqb k k' then Some v else None
      end
  end.

(** The field [k] of a parsed value, when it has one: the own member of
    an object; arrays, strings, numbers, booleans and [null] have none.
    For a key that no built-in prototype defines (the handlers read
    [transcription], [topic] and [prompt] only) this is what reading the
    property of a value other than [null] gives, with [None] for
    [undefined].  Reading a property of [null] throws: see [destructure]
    and [fetch_settled]. *)
Definition own_prop (v : json) (k : jsstring) : option json :=
  match v with
  | JObject members => lookup_member k members
  | _ => None
  end.

(** ToBoolean on a parsed value. *)
Definition truthy_json (v : json) : bool :=
  match v with
  | JNull => false
  | JBool b => b
  | JNumber (S754_zero _) => false
  | JNumber S754_nan => false
  | JNumber _ => true
  | JString [] => false
  | JString (_ :: _) => true
  | JArray _ => true
  | JObject _ => true
  end.

(** ToBoolean on the result of a property read. *)
Definition truthy (v : option json) : bool :=
  match v with
  | None => false
  | Some x => truthy_json x
  end.

(** An [Error] object. *)
Record js_error : Type := mkError {
  error_name : jsstring;
  error_message : jsstring
}.

(** A settled promise: rejected with an error or fulfilled with a value. *)
Definition settled (A : Type) : Type := (js_error + A)%type.

End JS.

Import JS.

(* ===================================================================== *)
(** ** The prompt relay: [POST] of [route.ts] *)
(* ===================================================================== *)

Module Relay.

(** *** The chat-completion client (the [openai] package) *)

Record ChatMessageParam : Type := mkMessageParam {
  role : jsstring;
  content : jsstring
}.

Record ChatParams : Type := mkChatParams {
  model : jsstring;
  messages : list ChatMessageParam;
  max_tokens : N
}.

(** A completion of the type the client declares ([ChatCompletion] of the
    [openai] package), as far as the handler reads it.  Every place the
    handler guards with [?.] is an option: [choices[0]], [.message],
    [.content].  The statements below about a call that returned are
    about completions of this type. *)
Record ChatCompletionMessage : Type := mkCompletionMessage {
  message_content : option jsstring
}.

Record Choice : Type := mkChoice {
  message : option ChatCompletionMessage
}.

Record ChatCompletion : Type := mkCompletion {
  choices : list Choice
}.

(** The Prompt Service: what [openai.chat.completions.create] settles to
    for given parameters. *)
Definition PromptService : Type := ChatParams -> settled ChatCompletion.

(** *** Requests and responses *)

(** A [NextRequest], as far as the handler uses it: what
    [request.json()] settles to.  It rejects when the body is not
    parseable as JSON. *)
Record NextRequest : Type := mkRequest {
  request_json : settled json
}.

Record NextResponse : Type := mkResponse {
  status : N;
  body : json
}.

(** [NextResponse.json(data, { status })] *)
Definition NextResponse_json (data : json) (st : option N) : NextResponse :=
  {| status := match st with Some n => n | None => 200%N end;
     body := data |}.

(** *** Effects of the handler: a trace and an exception *)

Inductive Event : Type :=
| ServiceCall (params : ChatParams)
| ConsoleError (label : jsstring) (e : js_error).

(** A computation leaves a trace of events and ends with a value or with
    a thrown error. *)
Definition M (A : Type) : Type := (list Event * settled A)%type.

Definition ret {A} (a : A) : M A := ([], inr a).

Definition throw {A} (e : js_error) : M A := ([], inl e).

Definition bind {A B} (m : M A) (f : A -> M B) : M B :=
  match m with
  | (t, inl e) => (t, inl e)
  | (t, inr a) => let (t', r) := f a in (t ++ t', r)
  end.

(** [try { m } catch (error) { h error }] *)
Definition try_catch {A} (m : M A) (h : js_error -> M A) : M A :=
  match m with
  | (t, inl e) => let (t', r) := h e in (t ++ t', r)
  | (t, inr a) => (t, inr a)
  end.

(** [await p] for a promise that settles without further effect. *)
Definition await {A} (p : settled A) : M A := ([], p).

Definition emit (ev : Event) : M unit := ([ev], inr tt).

Declare Scope relay_scope.
Delimit Scope relay_scope with relay.
Notation "x <- m ;; k" := (bind m (fun x => k))
  (at level 61, m at next level, right associativity) : relay_scope.
Notation "m ;;; k" := (bind m (fun _ => k))
  (at level 61, right associativity) : relay_scope.
Local Open Scope relay_scope.

(** *** Constants of the handler *)

Definition transcription_key : jsstring := lit "transcription".
Definition topic_key : jsstring := lit "topic".
Definition error_key : jsstring := lit "error".
Definition prompt_key : jsstring := lit "prompt".

Definition missing_message : jsstring := lit "Missing transcription or topic".
Definition failed_message : jsstring := lit "Failed to generate prompt".
Definition fallback_prompt : jsstring := lit "Continue speaking naturally.".
Definition model_id : jsstring := lit "gpt-3.5-turbo".
Definition system_instruction : jsstring :=
  lit "You are an AI coach helping users improve their communication skills through video recording sessions.".
Definition log_label : jsstring := lit "Error generating prompt:".

Definition null_destructure_error : js_error :=
  {| error_name := lit "TypeError";
     error_message := lit "Cannot destructure property 'transcription' of '(intermediate value)' as it is null." |}.

Section Handler.

(** The conversion a template literal applies to a value that is not a
    string (ECMAScript ToString); it can throw.  Strings are embedded as
    they are, see [template_arg]. *)
Variable ToString_other : json -> settled jsstring.

(** The service the client talks to. *)
Variable service : PromptService.

(** [const { transcription, topic } = v]: reading the two properties;
    on [null] the destructuring throws. *)
Definition destructure (v : json) : M (option json * option json) :=
  match v with
  | JNull => throw null_destructure_error
  | _ => ret (own_prop v transcription_key, own_prop v topic_key)
  end.

(** [${v}] for a truthy [v]. *)
Definition template_arg (v : option json) : M jsstring :=
  match v with
  | Some (JString s) => ret s
  | Some other => await (ToString_other other)
  | None => ret (lit "undefined")
  end.

(** The user instruction of line 19. *)
Definition user_instruction (transcription topic : jsstring) : jsstring :=
  lit "Based on the user's speech transcription: " ++ dquote ++ transcription
    ++ dquote ++ lit ", and the topic: " ++ dquote ++ topic ++ dquote
    ++ lit ", generate a helpful, relevant prompt for the user to continue their response or improve their communication. Keep it concise and actionable.".

Definition chat_params (transcription topic : jsstring) : ChatParams :=
  {| model := model_id;
     messages := [ {| role := lit "system"; content := system_instruction |};
                   {| role := lit "user";
                      content := user_instruction transcription topic |} ];
     max_tokens := 100 |}.

(** [openai.chat.completions.create(params)] *)
Definition create (params : ChatParams) : M ChatCompletion :=
  emit (ServiceCall params) ;;; await (service params).

(** [completion.choices[0]?.message?.content]: the completion text,
    when there is one. *)
Definition completion_text (completion : ChatCompletion) : option jsstring :=
  match nth_error (choices completion) 0 with
  | None => None
  | Some choice =>
      match message choice with
      | None => None
      | Some msg => message_content msg
      end
  end.

(** [completion.choices[0]?.message?.content?.trim()] *)
Definition trimmed_content (completion : ChatCompletion) : option jsstring :=
  match completion_text completion with
  | None => None
  | Some text => Some (trim text)
  end.

(** [x || "Continue speaking naturally."] *)
Definition aiPrompt (completion : ChatCompletion) : jsstring :=
  match trimmed_content completion with
  | Some (c :: rest) => c :: rest
  | Some [] => fallback_prompt
  | None => fallback_prompt
  end.

Definition error_body (msg : jsstring) : json :=
  JObject [(error_key, JString msg)].

Definition prompt_body (p : jsstring) : json :=
  JObject [(prompt_key, JString p)].

(** The body of the [try] block. *)
Definition POST_try (request : NextRequest) : M NextResponse :=
  parsed <- await (request_json request) ;;
  fields <- destructure parsed ;;
  let (transcription, topic) := fields in
  if negb (truthy transcription) || negb (truthy topic) then
    ret (NextResponse_json (error_body missing_message) (Some 400%N))
  else
    t <- template_arg transcription ;;
    p <- template_arg topic ;;
    completion <- create (chat_params t p) ;;
    ret (NextResponse_json (prompt_body (aiPrompt completion)) None).

(** The [catch] block. *)
Definition POST_catch (error : js_error) : M NextResponse :=
  emit (ConsoleError log_label error) ;;;
  ret (NextResponse_json (error_body failed_message) (Some 500%N)).

Definition POST (request : NextRequest) : M NextResponse :=
  try_catch (POST_try request) POST_catch.

(** The calls to the Prompt Service in a trace. *)
Fixpoint service_calls (t : list Event) : list ChatParams :=
  match t with
  | [] => []
  | ServiceCall p :: rest => p :: service_calls rest
  | ConsoleError _ _ :: rest => service_calls rest
  end.

End Handler.

(** *** Vocabulary of the statements *)

(** A field that is absent from the parsed body, or is the empty
    string. *)
Definition absent_or_empty (v : option json) : Prop :=
  v = None \/ v = Some (JString []).

(** A field that holds the non-empty string [s]. *)
Definition holds_text (v : option json) (s : jsstring) : Prop :=
  v = Some (JString s) /\ s <> [].

(** The response and the service calls of a run of the handler. *)
Definition response_of (m : M NextResponse) : settled NextResponse := snd m.
Definition calls_of (m : M NextResponse) : list ChatParams :=
  service_calls (fst m).

(** *** Sample inputs *)

Definition no_coercion : json -> settled jsstring :=
  fun _ => inl {| error_name := lit "TypeError";
                  error_message := lit "Cannot convert object to primitive value" |}.

Definition quota_error : js_error :=
  {| error_name := lit "RateLimitError";
     error_message := lit "429 You exceeded your current quota" |}.

Definition syntax_error : js_error :=
  {| error_name := lit "SyntaxError";
     error_message := lit "Unexpected end of JSON input" |}.

Definition failing_service : PromptService := fun _ => inl quota_error.

Definition elaborate_completion : ChatCompletion :=
  {| choices :=
       [ {| message := Some {| message_content :=
              Some (lit "  Can you elaborate on a specific project? ") |} |} ] |}.

Definition elaborating_service : PromptService :=
  fun _ => inr elaborate_completion.

Definition interview_request : NextRequest :=
  {| request_json :=
       inr (JObject [ (transcription_key,
                       JString (lit "I have five years of experience"));
                      (topic_key, JString (lit "job-interview")) ]) |}.

Definition empty_transcription_request : NextRequest :=
  {| request_json :=
       inr (JObject [ (transcription_key, JString []);
                      (topic_key, JString (lit "debate")) ]) |}.

Definition null_request : NextRequest := {| request_json := inr JNull |}.

Definition truncated_request : NextRequest :=
  {| request_json := inl syntax_error |}.

(** *** Further vocabulary: what a run logs *)



(** A value that is not a string and is falsy: [null], [false], a zero. *)
Definition falsy_non_string (v : json) : Prop :=
  v = JNull \/ v = JBool false \/ exists sign, v = JNumber (S754_zero sign).

(** A request whose body is a number where the transcription should be,
    and a conversion that prints it. *)
Definition forty_two : json := JNumber (S754_finite false 42 Z0).

Definition printing_coercion : json -> settled jsstring :=
  fun v => match v with
           | JNumber (S754_finite false 42 Z0) => inr (lit "42")
           | _ => no_coercion v
           end.

Definition numeric_request : NextRequest :=
  {| request_json :=
       inr (JObject [ (transcription_key, forty_two);
                      (topic_key, JString (lit "debate")) ]) |}.

Definition zero_request : NextRequest :=
  {| request_json :=
       inr (JObject [ (transcription_key, JNumber (S754_zero true));
                      (topic_key, JString (lit "debate")) ]) |}.

Definition nested_request : NextRequest :=
  {| request_json :=
       inr (JObject [ (transcription_key, JObject [(lit "toString", JNull)]);
                      (topic_key, JString (lit "debate")) ]) |}.

End Relay.

(* ===================================================================== *)
(** ** The recording session: [RecordingPage] *)
(* ===================================================================== *)

Module Session.

(** *** Platform objects *)

Record MediaStreamTrack : Type := mkTrack {
  track_kind : jsstring;
  track_id : N
}.

Record MediaStream : Type := mkStream {
  getTracks : list MediaStreamTrack
}.

Record Blob : Type := mkBlob {
  blob_bytes : list byte;
  blob_type : jsstring
}.

(** [blob.size] *)
Definition size (b : Blob) : nat := length (blob_bytes b).

(** [new Blob(parts, { type })]: the parts, concatenated in order. *)
Definition new_Blob (parts : list Blob) (type : jsstring) : Blob :=
  {| blob_bytes := concat (map blob_bytes parts); blob_type := type |}.

(** [new MediaRecorder(stream)] *)
Record MediaRecorder : Type := mkRecorder {
  recorder_stream : MediaStream
}.

(** The recognizer as [startRecording] configures it.  Its [onresult]
    handler is the closure [onresult] below over the [topicId] of the
    render that created it. *)
Record SpeechRecognition : Type := mkRecognition {
  continuous : bool;
  interimResults : bool;
  onresult_topicId : jsstring
}.

Record SpeechRecognitionAlternative : Type := mkAlternative {
  transcript : jsstring
}.

(** A result is indexable by the declared type: [result[0]] is an
    alternative. *)
Record SpeechRecognitionResult : Type := mkResult {
  isFinal : bool;
  alternative0 : SpeechRecognitionAlternative;
  alternatives : list SpeechRecognitionAlternative
}.

Record SpeechRecognitionEvent : Type := mkEvent {
  resultIndex : nat;
  results : list SpeechRecognitionResult
}.

(** The second argument of [fetch]; [init_body] is the value given to
    [JSON.stringify]. *)
Record RequestInit : Type := mkInit {
  method : jsstring;
  headers : list (jsstring * jsstring);
  init_body : json
}.

(** What the page asks of the browser. *)
Record Browser : Type := mkBrowser {
  (** ["webkitSpeechRecognition" in window] *)
  has_webkitSpeechRecognition : bool;
  (** [videoRef.current] is set *)
  videoRef_current : bool;
  (** the URL [URL.createObjectURL] hands out for a blob *)
  createObjectURL : Blob -> jsstring
}.

(** *** What a handler does: state updates and platform calls, in
    program order *)

Inductive Action : Type :=
(* state setters of [useState] *)
| SetStream (s : MediaStream)
| SetMediaRecorder (r : MediaRecorder)
| SetRecordedChunks (chunks : list Blob)
| PushRecordedChunk (chunk : Blob)          (* prev => [...prev, chunk] *)
| SetIsRecording (b : bool)
| SetTranscription (s : jsstring)
| AppendTranscription (s : jsstring)        (* prev => prev + s *)
| SetCurrentPrompt (v : json)
(* the ref *)
| SetRecognitionRef (r : SpeechRecognition)
(* platform calls *)
| VideoSrcObject (s : MediaStream)
| NewMediaRecorder (r : MediaRecorder)
| RecorderStart (r : MediaRecorder)
| RecorderStop (r : MediaRecorder)
| NewSpeechRecognition (r : SpeechRecognition)
| RecognitionStart (r : SpeechRecognition)
| RecognitionStop (r : SpeechRecognition)
| Fetch (url : jsstring) (init : RequestInit)
| UrlCreateObjectURL (b : Blob) (url : jsstring)
| AnchorClick (href download : jsstring)
| UrlRevokeObjectURL (url : jsstring)
| TrackStop (t : MediaStreamTrack)
| ConsoleError (label : jsstring) (e : js_error).

(** *** The hooks of the component *)

(** The cells of [useState] and [useRef].  [currentPrompt] is declared a
    string; [setCurrentPrompt(data.prompt)] stores the parsed value
    unconverted, so the cell holds a JSON value.  What the page shows is
    the cell when the cell holds a string; the statements about the
    display are about string prompts. *)
Record Hooks : Type := mkHooks {
  isRecording : bool;
  currentPrompt : json;
  stream : option MediaStream;
  mediaRecorder : option MediaRecorder;
  recordedChunks : list Blob;
  transcription : jsstring;
  recognitionRef : option SpeechRecognition
}.

Definition initial_hooks : Hooks :=
  {| isRecording := false;
     currentPrompt := JString (lit "Click start to begin your session");
     stream := None;
     mediaRecorder := None;
     recordedChunks := [];
     transcription := [];
     recognitionRef := None |}.

(** The effect of one action on the cells. *)
Definition apply_action (a : Action) (h : Hooks) : Hooks :=
  match a with
  | SetStream s =>
      mkHooks (isRecording h) (currentPrompt h) (Some s) (mediaRecorder h)
              (recordedChunks h) (transcription h) (recognitionRef h)
  | SetMediaRecorder r =>
      mkHooks (isRecording h) (currentPrompt h) (stream h) (Some r)
              (recordedChunks h) (transcription h) (recognitionRef h)
  | SetRecordedChunks chunks =>
      mkHooks (isRecording h) (currentPrompt h) (stream h) (mediaRecorder h)
              chunks (transcription h) (recognitionRef h)
  | PushRecordedChunk chunk =>
      mkHooks (isRecording h) (currentPrompt h) (stream h) (mediaRecorder h)
              (recordedChunks h ++ [chunk]) (transcription h) (recognitionRef h)
  | SetIsRecording b =>
      mkHooks b (currentPrompt h) (stream h) (mediaRecorder h)
              (recordedChunks h) (transcription h) (recognitionRef h)
  | SetTranscription s =>
      mkHooks (isRecording h) (currentPrompt h) (stream h) (mediaRecorder h)
              (recordedChunks h) s (recognitionRef h)
  | AppendTranscription s =>
      mkHooks (isRecording h) (currentPrompt h) (stream h) (mediaRecorder h)
              (recordedChunks h) (transcription h ++ s) (recognitionRef h)
  | SetCurrentPrompt v =>
      mkHooks (isRecording h) v (stream h) (mediaRecorder h)
              (recordedChunks h) (transcription h) (recognitionRef h)
  | SetRecognitionRef r =>
      mkHooks (isRecording h) (currentPrompt h) (stream h) (mediaRecorder h)
              (recordedChunks h) (transcription h) (Some r)
  | _ => h
  end.

(** The cells after a handler has run: its updates, applied in order. *)
Definition commit (acts : list Action) (h : Hooks) : Hooks :=
  fold_left (fun acc a => apply_action a acc) acts h.

(** *** Messages *)

Definition start_speaking_message : jsstring :=
  lit "Start speaking to receive AI prompts.".
Definition not_supported_message : jsstring :=
  lit "Speech recognition not supported in this browser.".
Definition stopped_message : jsstring :=
  lit "Recording stopped. Review your performance!".
Definition relay_url : jsstring := lit "/api/generate-prompt".
Definition webm_type : jsstring := lit "video/webm".
Definition download_name : jsstring := lit "recording.webm".

(** *** The effect of the mount *)

(** [getMedia], once [getUserMedia] has settled. *)
Definition getMedia (env : Browser) (acquired : settled MediaStream)
  : list Action :=
  match acquired with
  | inr mediaStream =>
      SetStream mediaStream ::
      (if videoRef_current env then [VideoSrcObject mediaStream] else [])
  | inl error =>
      [ConsoleError (lit "Error accessing media devices:") error]
  end.

(** The cleanup the effect returns, as a closure over the cells of the
    render that ran the effect. *)
Definition effect_cleanup (render : Hooks) : list Action :=
  match stream render with
  | Some s => map TrackStop (getTracks s)
  | None => []
  end.

(** *** Handlers.  Each is a closure over the cells of the render that
    created it ([render]) and over the [topicId] prop. *)

(** [recorder.ondataavailable] *)
Definition ondataavailable (data : Blob) : list Action :=
  if 0 <? size data then [PushRecordedChunk data] else [].

(** The request [onresult] sends for one transcript. *)
Definition relay_request (transcript topicId : jsstring) : RequestInit :=
  {| method := lit "POST";
     headers := [(lit "Content-Type", lit "application/json")];
     init_body := JObject [ (Relay.transcription_key, JString transcript);
                            (Relay.topic_key, JString topicId) ] |}.

(** The body of the loop of [onresult] at index [i]. *)
Definition onresult_body (topicId : jsstring) (event : SpeechRecognitionEvent)
  (i : nat) : list Action :=
  match nth_error (results event) i with
  | Some result =>
      if isFinal result then
        let transcript := transcript (alternative0 result) in
        [ AppendTranscription transcript;
          Fetch relay_url (relay_request transcript topicId) ]
      else []
  | None => []   (* not reached: i < results.length *)
  end.

(** [for (let i = ...; i < event.results.length; i++)] from [i] on. *)
Equations? onresult_loop (topicId : jsstring) (event : SpeechRecognitionEvent)
  (i : nat) : list Action by wf (length (results event) - i) lt :=
  onresult_loop topicId event i with lt_dec i (length (results event)) => {
    | left _ := onresult_body topicId event i
                  ++ onresult_loop topicId event (S i);
    | right _ := [] }.
Proof. lia. Qed.

(** [recognition.onresult] *)
Definition onresult (topicId : jsstring) (event : SpeechRecognitionEvent)
  : list Action :=
  onresult_loop topicId event (resultIndex event).

Definition data_prompt_error : js_error :=
  {| error_name := lit "TypeError";
     error_message := lit "Cannot read properties of null (reading 'prompt')" |}.

(** The chain [.then(res => res.json()).then(data => ...).catch(...)]
    once [fetch] and [res.json()] have settled with [reply]. *)
Definition fetch_settled (reply : settled json) : list Action :=
  match reply with
  | inl err => [ConsoleError (lit "Error fetching prompt:") err]
  | inr JNull => [ConsoleError (lit "Error fetching prompt:") data_prompt_error]
  | inr data =>
      match own_prop data Relay.prompt_key with
      | Some p => if truthy_json p then [SetCurrentPrompt p] else []
      | None => []
      end
  end.

Definition startRecording (env : Browser) (topicId : jsstring) (render : Hooks)
  : list Action :=
  match stream render with
  | None => []
  | Some s =>
      let recorder := {| recorder_stream := s |} in
      [ NewMediaRecorder recorder;
        SetMediaRecorder recorder;
        SetRecordedChunks [];
        RecorderStart recorder;
        SetIsRecording true;
        SetTranscription [];
        SetCurrentPrompt (JString start_speaking_message) ]
      ++
      if has_webkitSpeechRecognition env then
        let recognition := {| continuous := true;
                              interimResults := false;
                              onresult_topicId := topicId |} in
        [ NewSpeechRecognition recognition;
          RecognitionStart recognition;
          SetRecognitionRef recognition ]
      else
        [ SetCurrentPrompt (JString not_supported_message) ]
  end.

Definition stopRecording (env : Browser) (render : Hooks) : list Action :=
  (match mediaRecorder render with
   | Some r => [RecorderStop r]
   | None => []
   end)
  ++ (match recognitionRef render with
      | Some r => [RecognitionStop r]
      | None => []
      end)
  ++ [ SetIsRecording false;
       SetCurrentPrompt (JString stopped_message) ]
  ++ (if 0 <? length (recordedChunks render) then
        let blob := new_Blob (recordedChunks render) webm_type in
        let url := createObjectURL env blob in
        [ UrlCreateObjectURL blob url;
          AnchorClick url download_name;
          UrlRevokeObjectURL url ]
      else []).

(** *** The mounted component *)

(** What happens to a mounted page. *)
Inductive Input : Type :=
| MediaSettled (acquired : settled MediaStream)  (* getUserMedia settles *)
| ClickButton                                    (* the record button *)
| DataAvailable (data : Blob)
| Result (event : SpeechRecognitionEvent)
| FetchSettled (reply : settled json).

(** [hooks] are the current cells; [effect_render] are the cells of the
    render whose effect is installed; [history] is everything done so
    far. *)
Record Mounted : Type := mkMounted {
  hooks : Hooks;
  effect_render : Hooks;
  history : list Action
}.

(** The first render.  The effect has the dependency list [[]]: it runs
    after this render and never again, so its cleanup stays the one of
    this render. *)
Definition mount : Mounted :=
  {| hooks := initial_hooks;
     effect_render := initial_hooks;
     history := [] |}.

(** The handler an input reaches.  The button is
    [isRecording ? stopRecording : startRecording] of the latest render;
    a recorder or recognizer event reaches the handler installed on that
    object, and is lost when there is no such object. *)
Definition handle (env : Browser) (topicId : jsstring) (c : Mounted)
  (i : Input) : list Action :=
  match i with
  | MediaSettled acquired => getMedia env acquired
  | ClickButton =>
      if isRecording (hooks c) then stopRecording env (hooks c)
      else startRecording env topicId (hooks c)
  | DataAvailable data =>
      match mediaRecorder (hooks c) with
      | Some _ => ondataavailable data
      | None => []
      end
  | Result event =>
      match recognitionRef (hooks c) with
      | Some recognition => onresult (onresult_topicId recognition) event
      | None => []
      end
  | FetchSettled reply => fetch_settled reply
  end.

(** One input: the handler runs, its updates are committed, the page
    renders again. *)
Definition step (env : Browser) (topicId : jsstring) (c : Mounted) (i : Input)
  : Mounted :=
  let acts := handle env topicId c i in
  {| hooks := commit acts (hooks c);
     effect_render := effect_render c;
     history := history c ++ acts |}.

Definition run (env : Browser) (topicId : jsstring) (inputs : list Input)
  : Mounted :=
  fold_left (step env topicId) inputs mount.

(** Unmounting runs the cleanup of the installed effect. *)
Definition unmount (c : Mounted) : list Action :=
  effect_cleanup (effect_render c).

(** A track is stopped in a history when [track.stop()] occurs in it. *)
Definition is_TrackStop (t : MediaStreamTrack) (a : Action) : bool :=
  match a with
  | TrackStop t' => (track_id t =? track_id t')%N
                    && jsstring_eqb (track_kind t) (track_kind t')
  | _ => false
  end.

Definition stopped (t : MediaStreamTrack) (acts : list Action) : bool :=
  existsb (is_TrackStop t) acts.

(** Projections of a history used in the statements. *)
Definition is_Fetch (a : Action) : bool :=
  match a with Fetch _ _ => true | _ => false end.

Definition is_AnchorClick (a : Action) : bool :=
  match a with AnchorClick _ _ => true | _ => false end.

(** The three steps of the download in [stopRecording]. *)
Definition is_download_step (a : Action) : bool :=
  match a with
  | UrlCreateObjectURL _ _ | AnchorClick _ _ | UrlRevokeObjectURL _ => true
  | _ => false
  end.

(** What [onresult] does with one final result. *)
Definition relay_result (topicId : jsstring) (result : SpeechRecognitionResult)
  : list Action :=
  [ AppendTranscription (transcript (alternative0 result));
    Fetch relay_url (relay_request (transcript (alternative0 result)) topicId) ].

(** The results an event newly reports as final, in index order. *)
Definition new_finals (event : SpeechRecognitionEvent)
  : list SpeechRecognitionResult :=
  filter isFinal (skipn (resultIndex event) (results event)).

(** *** Sample inputs *)

Definition camera : MediaStreamTrack :=
  {| track_kind := lit "video"; track_id := 1 |}.
Definition microphone : MediaStreamTrack :=
  {| track_kind := lit "audio"; track_id := 2 |}.
Definition webcam : MediaStream := {| getTracks := [camera; microphone] |}.

Definition chrome : Browser :=
  {| has_webkitSpeechRecognition := true;
     videoRef_current := true;
     createObjectURL := fun _ => lit "blob:http://localhost:3000/0f3c" |}.

Definition firefox : Browser :=
  {| has_webkitSpeechRecognition := false;
     videoRef_current := true;
     createObjectURL := fun _ => lit "blob:http://localhost:3000/77aa" |}.

Definition debate : jsstring := lit "debate".

Definition chunk1 : Blob :=
  {| blob_bytes := [x1a; x45; xdf; xa3]; blob_type := lit "video/webm" |}.
Definition chunk2 : Blob :=
  {| blob_bytes := [x1f; x43; xb6]; blob_type := lit "video/webm" |}.

Definition heard (final : bool) (text : String.string)
  : SpeechRecognitionResult :=
  {| isFinal := final;
     alternative0 := {| transcript := lit text |};
     alternatives := [] |}.
Arguments heard final text%_string.

(** Three results, the first reported by an earlier event. *)
Definition two_new_results : SpeechRecognitionEvent :=
  {| resultIndex := 1;
     results := [ heard true "I think "; heard true "that taxes ";
                  heard false "shoul" ] |}.

(** The cells of a page that has its stream and is idle, and of a page
    in the middle of a recording. *)
Definition ready_hooks : Hooks :=
  {| isRecording := false;
     currentPrompt := JString (lit "Click start to begin your session");
     stream := Some webcam;
     mediaRecorder := None;
     recordedChunks := [];
     transcription := [];
     recognitionRef := None |}.

Definition recording_hooks : Hooks :=
  {| isRecording := true;
     currentPrompt := JString (lit "Present your main argument.");
     stream := Some webcam;
     mediaRecorder := Some {| recorder_stream := webcam |};
     recordedChunks := [chunk1; chunk2];
     transcription := lit "I think ";
     recognitionRef := Some {| continuous := true; interimResults := false;
                               onresult_topicId := debate |} |}.

(** *** Further vocabulary: what holds of the cells at every moment *)

(** A recording has its stream and its recorder; a recognizer in the ref
    is the one [startRecording] configures for this topic, and there is
    one while recording in a browser that has the capability; without a
    stream nothing has been started or collected. *)
Definition session_invariant (env : Browser) (topicId : jsstring) (h : Hooks)
  : Prop :=
  (isRecording h = true -> stream h <> None /\ mediaRecorder h <> None)
  /\ (forall r, recognitionRef h = Some r ->
                r = {| continuous := true; interimResults := false;
                       onresult_topicId := topicId |}
                /\ has_webkitSpeechRecognition env = true)
  /\ (isRecording h = true -> has_webkitSpeechRecognition env = true ->
      recognitionRef h <> None)
  /\ (stream h = None ->
      isRecording h = false /\ mediaRecorder h = None
      /\ recognitionRef h = None /\ recordedChunks h = []
      /\ transcription h = []).

(** A session in which one utterance is heard and answered. *)
Definition one_utterance : list Input :=
  [ MediaSettled (inr webcam); ClickButton; Result two_new_results ].

Definition media_denied : js_error :=
  {| error_name := lit "NotAllowedError";
     error_message := lit "Permission denied" |}.

Definition empty_chunk : Blob :=
  {| blob_bytes := []; blob_type := lit "video/webm" |}.

Definition coach_reply : json :=
  JObject [(Relay.prompt_key, JString (lit "Give one concrete example."))].

Definition late_reply : json :=
  JObject [(Relay.prompt_key, JString (lit "Slow down a little."))].

End Session.

(* ===================================================================== *)
(** ** The topic catalog and the home page: [topics], [prompts], [Home] *)
(* ===================================================================== *)

Module Catalog.

Record Topic : Type := mkTopic {
  id : jsstring;
  name : jsstring;
  description : jsstring
}.

(** [const topics = [...]] *)
Definition topics : list Topic :=
  [ {| id := lit "job-interview";
       name := lit "Job Interview";
       description := lit "Practice common interview questions" |};
    {| id := lit "presentation";
       name := lit "Presentation";
       description := lit "Improve your public speaking skills" |};
    {| id := lit "debate";
       name := lit "Debate";
       description := lit "Sharpen your argumentation skills" |};
    {| id := lit "sales-pitch";
       name := lit "Sales Pitch";
       description := lit "Refine your sales presentation" |};
    {| id := lit "storytelling";
       name := lit "Storytelling";
       description := lit "Master the art of narrative" |} ].

(** [const prompts: Record<string, string[]> = {...}], its members in
    the order written. *)
Definition prompts : list (jsstring * list jsstring) :=
  [ (lit "job-interview",
     [ lit "Welcome! Introduce yourself and state your topic.";
       lit "Tell me about your previous work experience.";
       lit "What are your strengths and weaknesses?";
       lit "Why do you want this job?";
       lit "Where do you see yourself in 5 years?" ]);
    (lit "presentation",
     [ lit "Welcome! Introduce yourself and state your topic.";
       lit "Outline the main points of your presentation.";
       lit "Explain the key benefits or findings.";
       lit "Address potential questions or objections.";
       lit "Summarize your main message." ]);
    (lit "debate",
     [ lit "Welcome! Introduce yourself and state your topic.";
       lit "Present your main argument.";
       lit "Provide evidence to support your position.";
       lit "Address counterarguments.";
       lit "Conclude your debate points." ]);
    (lit "sales-pitch",
     [ lit "Welcome! Introduce yourself and state your topic.";
       lit "Describe the problem you're solving.";
       lit "Explain your solution and its benefits.";
       lit "Discuss pricing and value proposition.";
       lit "Call to action - what should they do next?" ]);
    (lit "storytelling",
     [ lit "Welcome! Introduce yourself and state your topic.";
       lit "Set the scene for your story.";
       lit "Introduce the main characters or elements.";
       lit "Build up to the climax.";
       lit "Provide a satisfying conclusion." ]) ].

(** [prompts[key]]: the member under [key]; an object literal keeps the
    last member written under a key. *)
Fixpoint prompts_at (key : jsstring) (members : list (jsstring * list jsstring))
  : option (list jsstring) :=
  match members with
  | [] => None
  | (k, v) :: rest =>
      match prompts_at key rest with
      | Some later => Some later
      | None => if jsstring_eqb key k then Some v else None
      end
  end.

(** [topics.find((t) => t.id === topicId)] in [RecordingPage] *)
Definition topic_of (topicId : jsstring) : option Topic :=
  find (fun t => jsstring_eqb (id t) topicId) topics.

(** The heading of [RecordingPage]: [{topic?.name} Session]. *)
Definition heading (topicId : jsstring) : jsstring :=
  match topic_of topicId with
  | Some topic => name topic ++ lit " Session"
  | None => lit " Session"
  end.

(** *** [Home] *)

(** A card of the grid: its [key], its two texts, and the identifier its
    [onClick] hands to [handleTopicSelect]. *)
Record Card : Type := mkCard {
  card_key : jsstring;
  card_title : jsstring;
  card_text : jsstring;
  card_onClick : jsstring
}.

(** What [Home] renders. *)
Inductive View : Type :=
| TopicGrid (cards : list Card)
| RecordingView (topicId : jsstring).

(** [handleTopicSelect]: the next [selectedTopic]. *)
Definition handleTopicSelect (topicId : jsstring) : option jsstring :=
  Some topicId.

(** [onBack]: the next [selectedTopic]. *)
Definition onBack : option jsstring := None.

Definition card_of (topic : Topic) : Card :=
  {| card_key := id topic;
     card_title := name topic;
     card_text := description topic;
     card_onClick := id topic |}.

(** [Home], as a function of its cell [selectedTopic].  The test
    [if (selectedTopic)] is on a string or [null]. *)
Definition Home (selectedTopic : option jsstring) : View :=
  match selectedTopic with
  | Some (c :: rest) => RecordingView (c :: rest)
  | Some [] => TopicGrid (map card_of topics)
  | None => TopicGrid (map card_of topics)
  end.

(** The cell after a click on [card], then what is rendered. *)
Definition click_card (card : Card) : View :=
  Home (handleTopicSelect (card_onClick card)).

End Catalog.

(* ===================================================================== *)
(** ** Properties of the relay *)
(* ===================================================================== *)

Module RelayTheory.

Import Relay.

(** *** [trim] strips whitespace from both ends and nothing else *)

Lemma trimStart_split (s : jsstring) :
  exists ws, s = ws ++ trimStart s /\ forallb isWhiteSpace ws = true.
Proof.
  induction s as [|c rest [ws [Heq Hws]]].
  - exists []. split; reflexivity.
  - simpl. destruct (isWhiteSpace c) eqn:Hc.
    + exists (c :: ws). simpl. rewrite Hc, Hws. split; [congruence | reflexivity].
    + exists []. split; reflexivity.
Qed.

Lemma trimStart_head (s : jsstring) (c : code_unit) (rest : jsstring) :
  trimStart s = c :: rest -> isWhiteSpace c = false.
Proof.
  induction s as [|d s' IH]; simpl; [discriminate|].
  destruct (isWhiteSpace d) eqn:Hd; [exact IH|].
  intros H. injection H as -> _. exact Hd.
Qed.

Lemma forallb_rev {A} (f : A -> bool) (l : list A) :
  forallb f (rev l) = forallb f l.
Proof.
  induction l as [|a l IH]; simpl; [reflexivity|].
  rewrite forallb_app, IH. simpl. rewrite andb_true_r. apply andb_comm.
Qed.

Lemma trimEnd_split (s : jsstring) :
  exists ws, s = trimEnd s ++ ws /\ forallb isWhiteSpace ws = true.
Proof.
  unfold trimEnd. destruct (trimStart_split (rev s)) as [ws [Heq Hws]].
  exists (rev ws). split.
  - rewrite <- rev_app_distr, <- Heq, rev_involutive. reflexivity.
  - rewrite forallb_rev. exact Hws.
Qed.

(** The text is its trimmed form between two runs of whitespace. *)
Lemma trim_split (s : jsstring) :
  exists l r, s = l ++ trim s ++ r
              /\ forallb isWhiteSpace l = true
              /\ forallb isWhiteSpace r = true.
Proof.
  destruct (trimStart_split s) as [l [Hl Hwl]].
  destruct (trimEnd_split (trimStart s)) as [r [Hr Hwr]].
  exists l, r. unfold trim. rewrite <- Hr. auto.
Qed.

(** The trimmed form does not begin with whitespace. *)
Lemma trim_head (s : jsstring) (c : code_unit) (rest : jsstring) :
  trim s = c :: rest -> isWhiteSpace c = false.
Proof.
  unfold trim. intros H.
  destruct (trimEnd_split (trimStart s)) as [ws [Heq _]].
  rewrite H in Heq. simpl in Heq. eapply trimStart_head. exact Heq.
Qed.

(** The trimmed form does not end with whitespace. *)
Lemma trim_last (s : jsstring) (front : jsstring) (c : code_unit) :
  trim s = front ++ [c] -> isWhiteSpace c = false.
Proof.
  unfold trim, trimEnd. intros H.
  apply (f_equal (@rev _)) in H.
  rewrite rev_involutive, rev_app_distr in H. simpl in H.
  eapply trimStart_head. exact H.
Qed.

(** *** The prompt handed back *)

Lemma fallback_prompt_nonempty : fallback_prompt <> [].
Proof. discriminate. Qed.

Lemma aiPrompt_nonempty (completion : ChatCompletion) :
  aiPrompt completion <> [].
Proof.
  unfold aiPrompt. destruct (trimmed_content completion) as [[|c rest]|];
    try discriminate; apply fallback_prompt_nonempty.
Qed.

Lemma aiPrompt_text (completion : ChatCompletion) (text : jsstring) :
  completion_text completion = Some text ->
  aiPrompt completion = match trim text with
                        | [] => fallback_prompt
                        | c :: rest => c :: rest
                        end.
Proof.
  intros H. unfold aiPrompt, trimmed_content. rewrite H.
  destruct (trim text); reflexivity.
Qed.

Lemma aiPrompt_absent (completion : ChatCompletion) :
  completion_text completion = None -> aiPrompt completion = fallback_prompt.
Proof.
  intros H. unfold aiPrompt, trimmed_content. rewrite H. reflexivity.
Qed.

(** *** Runs of the handler *)

Section Runs.

Variable ToString_other : json -> settled jsstring.
Variable service : PromptService.

(** The handler never throws: the [catch] block handles every error. *)
Lemma POST_responds (request : NextRequest) :
  exists trace response, POST ToString_other service request = (trace, inr response).
Proof.
  unfold Relay.POST, try_catch.
  destruct (POST_try ToString_other service request) as [t [e|r]].
  - simpl. eauto.
  - eauto.
Qed.

(** A rejected [request.json()] goes to the [catch] block. *)
Lemma POST_rejected (request : NextRequest) (e : js_error) :
  request_json request = inl e ->
  POST ToString_other service request = POST_catch e.
Proof.
  intros H. unfold Relay.POST, POST_try, await. rewrite H. reflexivity.
Qed.

(** A [null] body goes to the [catch] block. *)
Lemma POST_null (request : NextRequest) :
  request_json request = inr JNull ->
  POST ToString_other service request = POST_catch null_destructure_error.
Proof.
  intros H. unfold Relay.POST, POST_try, await. rewrite H. reflexivity.
Qed.

(** A body with a falsy field is answered by the validation. *)
Lemma POST_falsy (request : NextRequest) (parsed : json) :
  request_json request = inr parsed ->
  parsed <> JNull ->
  truthy (own_prop parsed transcription_key) = false
  \/ truthy (own_prop parsed topic_key) = false ->
  POST ToString_other service request
  = ([], inr (NextResponse_json (error_body missing_message) (Some 400%N))).
Proof.
  intros Hreq Hnull Hfalsy.
  assert (Hguard : negb (truthy (own_prop parsed transcription_key))
                   || negb (truthy (own_prop parsed topic_key)) = true).
  { destruct Hfalsy as [H|H]; rewrite H; simpl; auto using orb_true_r. }
  unfold Relay.POST, POST_try, await. rewrite Hreq.
  destruct parsed; try congruence;
    unfold bind, destructure, ret; cbv zeta iota beta;
    try (rewrite Hguard); reflexivity.
Qed.

(** A body with two non-empty strings reaches the service once. *)
Lemma POST_valid (request : NextRequest) (parsed : json) (t p : jsstring) :
  request_json request = inr parsed ->
  holds_text (own_prop parsed transcription_key) t ->
  holds_text (own_prop parsed topic_key) p ->
  POST ToString_other service request
  = match service (chat_params t p) with
    | inr completion =>
        ([ServiceCall (chat_params t p)],
         inr (NextResponse_json (prompt_body (aiPrompt completion)) None))
    | inl e =>
        ([ServiceCall (chat_params t p); ConsoleError log_label e],
         inr (NextResponse_json (error_body failed_message) (Some 500%N)))
    end.
Proof.
  intros Hreq [Ht Htne] [Hp Hpne].
  unfold Relay.POST, POST_try, await. rewrite Hreq.
  destruct parsed; try discriminate Ht.
  unfold bind at 1 2. unfold destructure, ret. cbv zeta iota beta.
  rewrite Ht, Hp.
  destruct t as [|t0 t']; [congruence|].
  destruct p as [|p0 p']; [congruence|].
  cbn [truthy truthy_json negb orb template_arg].
  unfold bind, ret, create, emit, await. cbv zeta iota beta.
  destruct (service (chat_params (t0 :: t') (p0 :: p'))); reflexivity.
Qed.

(** The validation.  For every request whose parsed body is a JSON value
    other than [null] and in which [transcription] or [topic] is absent
    or the empty string, the handler answers with status 400 and the body
    [{error: "Missing transcription or topic"}], and calls the Prompt
    Service not at all. *)
Theorem missing_field_is_400 (request : NextRequest) (parsed : json) :
  request_json request = inr parsed ->
  parsed <> JNull ->
  absent_or_empty (own_prop parsed (lit "transcription"))
  \/ absent_or_empty (own_prop parsed (lit "topic")) ->
  response_of (POST ToString_other service request)
  = inr {| status := 400;
           body := JObject [(lit "error",
                             JString (lit "Missing transcription or topic"))] |}
  /\ calls_of (POST ToString_other service request) = [].
Proof.
  intros Hreq Hnull Hmissing.
  assert (Hfalsy : truthy (own_prop parsed transcription_key) = false
                   \/ truthy (own_prop parsed topic_key) = false).
  { destruct Hmissing as [[H|H]|[H|H]];
      [left | left | right | right];
      (change (lit "transcription") with transcription_key in H
       || change (lit "topic") with topic_key in H);
      rewrite H; reflexivity. }
  unfold response_of, calls_of.
  rewrite (POST_falsy request parsed Hreq Hnull Hfalsy). split; reflexivity.
Qed.

(** C2.  For every request with non-empty [transcription] and [topic],
    when the call to the Prompt Service throws, whatever the error, the
    handler answers with status 500 and the body
    [{error: "Failed to generate prompt"}]; the response is the same for
    every service that throws on that call, so nothing of the error
    reaches it. *)
Theorem service_failure_is_500 (request : NextRequest) (parsed : json)
  (t p : jsstring) (e : js_error) :
  request_json request = inr parsed ->
  holds_text (own_prop parsed (lit "transcription")) t ->
  holds_text (own_prop parsed (lit "topic")) p ->
  service (chat_params t p) = inl e ->
  response_of (POST ToString_other service request)
  = inr {| status := 500;
           body := JObject [(lit "error",
                             JString (lit "Failed to generate prompt"))] |}
  /\ forall (service' : PromptService) (e' : js_error),
       service' (chat_params t p) = inl e' ->
       response_of (POST ToString_other service' request)
       = response_of (POST ToString_other service request).
Proof.
  intros Hreq Ht Hp Hthrow. unfold response_of. split.
  - rewrite (POST_valid request parsed t p Hreq Ht Hp), Hthrow. reflexivity.
  - intros service' e' Hthrow'.
    rewrite (POST_valid request parsed t p Hreq Ht Hp), Hthrow.
    unfold POST, POST_try, await. rewrite Hreq.
    destruct Ht as [Ht Htne], Hp as [Hp Hpne].
    destruct parsed; try discriminate Ht.
    unfold bind at 1 2. unfold destructure, ret. cbv zeta iota beta.
    change (lit "transcription") with transcription_key in Ht.
    change (lit "topic") with topic_key in Hp.
    rewrite Ht, Hp.
    destruct t as [|t0 t']; [congruence|].
    destruct p as [|p0 p']; [congruence|].
    cbn [truthy truthy_json negb orb template_arg].
    unfold bind, ret, create, emit, await. cbv zeta iota beta.
    rewrite Hthrow'. reflexivity.
Qed.

(** C3.  For every request with non-empty [transcription] and [topic],
    when the call to the Prompt Service returns a completion, the handler
    answers with status 200 and a body [{prompt: s}] in which [s] is not
    empty.  When the first choice of the completion has a message with a
    text content, [s] is that text without the whitespace around it: the
    text is [s] between two runs of whitespace, and [s] neither begins
    nor ends with whitespace; unless the text is whitespace only, and
    then [s] is ["Continue speaking naturally."].  When there is no first
    choice, no message or no content, [s] is
    ["Continue speaking naturally."]. *)
Theorem service_success_is_200 (request : NextRequest) (parsed : json)
  (t p : jsstring) (completion : ChatCompletion) :
  request_json request = inr parsed ->
  holds_text (own_prop parsed (lit "transcription")) t ->
  holds_text (own_prop parsed (lit "topic")) p ->
  service (chat_params t p) = inr completion ->
  exists s : jsstring,
    response_of (POST ToString_other service request)
    = inr {| status := 200; body := JObject [(lit "prompt", JString s)] |}
    /\ s <> []
    /\ match choices completion with
       | {| message := Some {| message_content := Some text |} |} :: _ =>
           (exists l r,
              text = l ++ s ++ r
              /\ forallb isWhiteSpace l = true
              /\ forallb isWhiteSpace r = true
              /\ (forall c rest, s = c :: rest -> isWhiteSpace c = false)
              /\ (forall front c, s = front ++ [c] -> isWhiteSpace c = false))
           \/ (forallb isWhiteSpace text = true
               /\ s = lit "Continue speaking naturally.")
       | _ => s = lit "Continue speaking naturally."
       end.
Proof.
  intros Hreq Ht Hp Hok. exists (aiPrompt completion).
  unfold response_of.
  rewrite (POST_valid request parsed t p Hreq Ht Hp), Hok.
  split; [reflexivity|]. split; [apply aiPrompt_nonempty|].
  unfold aiPrompt, trimmed_content, completion_text.
  destruct (choices completion) as [|[[[[text|]]|]] others]; cbn [nth_error message message_content];
    try reflexivity.
  destruct (trim_split text) as [l [r [Hsplit [Hl Hr]]]].
  destruct (trim text) as [|c rest] eqn:Htrim.
  - right. split; [|reflexivity].
    rewrite Hsplit. cbn [app]. rewrite forallb_app, Hl, Hr. reflexivity.
  - left. exists l, r. repeat split; try assumption.
    + intros d more Hd. injection Hd as <- _.
      apply (trim_head text c rest Htrim).
    + intros front d Hd. apply (trim_last text front d).
      rewrite Htrim. exact Hd.
Qed.

(** C9.  For every request with non-empty [transcription] and [topic],
    the handler calls the Prompt Service exactly once, whether the call
    then returns or throws: with the model ["gpt-3.5-turbo"], the fixed
    system instruction, a user instruction that is the fixed template
    with the two strings put in unchanged, and [max_tokens] 100. *)
Theorem valid_input_one_call (request : NextRequest) (parsed : json)
  (t p : jsstring) :
  request_json request = inr parsed ->
  holds_text (own_prop parsed (lit "transcription")) t ->
  holds_text (own_prop parsed (lit "topic")) p ->
  calls_of (POST ToString_other service request)
  = [ {| model := lit "gpt-3.5-turbo";
         messages :=
           [ {| role := lit "system";
                content := lit "You are an AI coach helping users improve their communication skills through video recording sessions." |};
             {| role := lit "user";
                content :=
                  lit "Based on the user's speech transcription: " ++ [34%N]
                  ++ t ++ [34%N] ++ lit ", and the topic: " ++ [34%N]
                  ++ p ++ [34%N]
                  ++ lit ", generate a helpful, relevant prompt for the user to continue their response or improve their communication. Keep it concise and actionable." |} ];
         max_tokens := 100 |} ].
Proof.
  intros Hreq Ht Hp. unfold calls_of.
  rewrite (POST_valid request parsed t p Hreq Ht Hp).
  destruct (service (chat_params t p)); reflexivity.
Qed.

(** C10.  For every request whose body does not parse as JSON, the
    handler answers with status 500 and the body
    [{error: "Failed to generate prompt"}], not with the 400 of the
    validation: the run is that of the [catch] block, which is also where
    a failure of the service ends, and the service is not called. *)
Theorem unparseable_body_is_500 (request : NextRequest) (e : js_error) :
  request_json request = inl e ->
  response_of (POST ToString_other service request)
  = inr {| status := 500;
           body := JObject [(lit "error",
                             JString (lit "Failed to generate prompt"))] |}
  /\ response_of (POST ToString_other service request)
     <> inr {| status := 400;
               body := JObject [(lit "error",
                                 JString (lit "Missing transcription or topic"))] |}
  /\ POST ToString_other service request = POST_catch e
  /\ calls_of (POST ToString_other service request) = [].
Proof.
  intros Hreq. unfold response_of, calls_of.
  rewrite (POST_rejected request e Hreq).
  repeat split; try reflexivity. discriminate.
Qed.

(** The validation answers only bodies that parsed. *)
Lemma validation_needs_parsed_body (request : NextRequest)
  (response : NextResponse) :
  response_of (POST ToString_other service request) = inr response ->
  status response = 400%N ->
  exists parsed, request_json request = inr parsed.
Proof.
  intros Hresp Hstatus.
  destruct (request_json request) as [e|parsed] eqn:Hreq; [|eauto].
  unfold response_of in Hresp. rewrite (POST_rejected request e Hreq) in Hresp.
  injection Hresp as <-. discriminate Hstatus.
Qed.

(** A failure of the service ends in the same [catch] block. *)
Lemma service_failure_runs_catch (request : NextRequest) (parsed : json)
  (t p : jsstring) (e : js_error) :
  request_json request = inr parsed ->
  holds_text (own_prop parsed transcription_key) t ->
  holds_text (own_prop parsed topic_key) p ->
  service (chat_params t p) = inl e ->
  POST ToString_other service request
  = (ServiceCall (chat_params t p) :: fst (POST_catch e), snd (POST_catch e)).
Proof.
  intros Hreq Ht Hp Hthrow.
  rewrite (POST_valid request parsed t p Hreq Ht Hp), Hthrow. reflexivity.
Qed.

End Runs.

(** *** The statements at sample requests *)

(** The scenario of an empty transcription:
    [{transcription: "", topic: "debate"}]. *)
Lemma missing_field_is_400_witness :
  response_of (POST no_coercion elaborating_service empty_transcription_request)
  = inr {| status := 400;
           body := JObject [(lit "error",
                             JString (lit "Missing transcription or topic"))] |}
  /\ calls_of (POST no_coercion elaborating_service empty_transcription_request)
     = [].
Proof.
  apply (missing_field_is_400 no_coercion elaborating_service
           empty_transcription_request
           (JObject [ (transcription_key, JString []);
                      (topic_key, JString (lit "debate")) ])).
  - reflexivity.
  - discriminate.
  - left. right. reflexivity.
Defined.

(** C1 at the body [null].  The claim asks for the 400 of the validation
    whenever [transcription] is absent; it is absent from [null], but the
    destructuring of line 10 throws on [null] before the check of line
    12 is reached, and the handler answers with the 500 of the [catch]
    block.  Every other parsed value without the field gets the 400. *)
Lemma null_body_is_500 :
  request_json null_request = inr JNull
  /\ absent_or_empty (own_prop JNull (lit "transcription"))
  /\ response_of (POST no_coercion elaborating_service null_request)
     = inr {| status := 500;
              body := JObject [(lit "error",
                                JString (lit "Failed to generate prompt"))] |}
  /\ response_of (POST no_coercion elaborating_service null_request)
     <> inr {| status := 400;
               body := JObject [(lit "error",
                                 JString (lit "Missing transcription or topic"))] |}.
Proof.
  split; [reflexivity|]. split; [left; reflexivity|].
  split; [reflexivity | discriminate].
Qed.

Lemma service_failure_is_500_witness :
  response_of (POST no_coercion failing_service interview_request)
  = inr {| status := 500;
           body := JObject [(lit "error",
                             JString (lit "Failed to generate prompt"))] |}
  /\ forall (service' : PromptService) (e' : js_error),
       service' (chat_params (lit "I have five years of experience")
                             (lit "job-interview")) = inl e' ->
       response_of (POST no_coercion service' interview_request)
       = response_of (POST no_coercion failing_service interview_request).
Proof.
  apply (service_failure_is_500 no_coercion failing_service interview_request
           (JObject [ (transcription_key,
                       JString (lit "I have five years of experience"));
                      (topic_key, JString (lit "job-interview")) ])
           (lit "I have five years of experience")
           (lit "job-interview") quota_error).
  - reflexivity.
  - split; [reflexivity | discriminate].
  - split; [reflexivity | discriminate].
  - reflexivity.
Defined.

Lemma service_success_is_200_witness :
  exists s : jsstring,
    response_of (POST no_coercion elaborating_service interview_request)
    = inr {| status := 200; body := JObject [(lit "prompt", JString s)] |}
    /\ s <> []
    /\ ((exists l r,
           lit "  Can you elaborate on a specific project? " = l ++ s ++ r
           /\ forallb isWhiteSpace l = true
           /\ forallb isWhiteSpace r = true
           /\ (forall c rest, s = c :: rest -> isWhiteSpace c = false)
           /\ (forall front c, s = front ++ [c] -> isWhiteSpace c = false))
        \/ (forallb isWhiteSpace
              (lit "  Can you elaborate on a specific project? ") = true
            /\ s = lit "Continue speaking naturally.")).
Proof.
  apply (service_success_is_200 no_coercion elaborating_service
           interview_request
           (JObject [ (transcription_key,
                       JString (lit "I have five years of experience"));
                      (topic_key, JString (lit "job-interview")) ])
           (lit "I have five years of experience")
           (lit "job-interview") elaborate_completion).
  - reflexivity.
  - split; [reflexivity | discriminate].
  - split; [reflexivity | discriminate].
  - reflexivity.
Defined.

(** The scenario of the specification: the reply of the service comes
    back trimmed. *)
Example interview_scenario :
  POST no_coercion elaborating_service interview_request
  = ([ServiceCall (chat_params (lit "I have five years of experience")
                               (lit "job-interview"))],
     inr {| status := 200;
            body := JObject [(lit "prompt",
                              JString (lit "Can you elaborate on a specific project?"))] |}).
Proof. reflexivity. Qed.

(** An empty completion gives the fallback. *)
Example empty_completion_scenario :
  response_of (POST no_coercion
                 (fun _ => inr {| choices := [ {| message := Some
                                   {| message_content := Some (lit "  ") |} |} ] |})
                 interview_request)
  = inr {| status := 200;
           body := JObject [(lit "prompt",
                             JString (lit "Continue speaking naturally."))] |}.
Proof. reflexivity. Qed.

Lemma valid_input_one_call_witness :
  calls_of (POST no_coercion failing_service interview_request)
  = [ chat_params (lit "I have five years of experience")
                  (lit "job-interview") ].
Proof.
  apply (valid_input_one_call no_coercion failing_service interview_request
           (JObject [ (transcription_key,
                       JString (lit "I have five years of experience"));
                      (topic_key, JString (lit "job-interview")) ])
           (lit "I have five years of experience")
           (lit "job-interview")).
  - reflexivity.
  - split; [reflexivity | discriminate].
  - split; [reflexivity | discriminate].
Defined.

Lemma unparseable_body_is_500_witness :
  response_of (POST no_coercion elaborating_service truncated_request)
  = inr {| status := 500;
           body := JObject [(lit "error",
                             JString (lit "Failed to generate prompt"))] |}
  /\ response_of (POST no_coercion elaborating_service truncated_request)
     <> inr {| status := 400;
               body := JObject [(lit "error",
                                 JString (lit "Missing transcription or topic"))] |}
  /\ POST no_coercion elaborating_service truncated_request
     = POST_catch syntax_error
  /\ calls_of (POST no_coercion elaborating_service truncated_request) = [].
Proof.
  apply (unparseable_body_is_500 no_coercion elaborating_service
           truncated_request syntax_error).
  reflexivity.
Defined.

End RelayTheory.

(* ===================================================================== *)
(** ** Properties of the recording session *)
(* ===================================================================== *)

Module SessionTheory.

Import Session.

(** Membership in an explicit list of actions. *)
Ltac in_actions :=
  cbn [app In]; repeat (first [left; reflexivity | right]).

Ltac not_in_actions H :=
  cbn [app In] in H;
  repeat (destruct H as [H|H]; [discriminate H|]); exact H.

(** *** Committing updates *)

Lemma commit_app (a b : list Action) (h : Hooks) :
  commit (a ++ b) h = commit b (commit a h).
Proof. unfold commit. apply fold_left_app. Qed.

Lemma commit_cons (a : Action) (rest : list Action) (h : Hooks) :
  commit (a :: rest) h = commit rest (apply_action a h).
Proof. reflexivity. Qed.

(** *** The loop of [onresult] *)

Lemma skipn_nth_error {A} (l : list A) (i : nat) (x : A) :
  nth_error l i = Some x -> skipn i l = x :: skipn (S i) l.
Proof.
  revert i. induction l as [|a l IH]; intros [|i] H; simpl in H; try discriminate.
  - injection H as ->. reflexivity.
  - rewrite skipn_cons. apply IH. exact H.
Qed.

Lemma onresult_body_final (topicId : jsstring) (event : SpeechRecognitionEvent)
  (i : nat) (result : SpeechRecognitionResult) :
  nth_error (results event) i = Some result ->
  onresult_body topicId event i
  = if isFinal result then relay_result topicId result else [].
Proof. intros H. unfold onresult_body. rewrite H. reflexivity. Qed.

(** The loop visits the results from [i] on and handles the final ones,
    in index order. *)
Lemma onresult_loop_spec (topicId : jsstring) (event : SpeechRecognitionEvent)
  (i : nat) :
  onresult_loop topicId event i
  = flat_map (relay_result topicId) (filter isFinal (skipn i (results event))).
Proof.
  funelim (onresult_loop topicId event i).
  - match goal with IH : onresult_loop _ _ _ = flat_map _ _ |- _ => rewrite IH end.
    destruct (nth_error (results event) i) as [result|] eqn:Hi.
    + rewrite (skipn_nth_error _ _ _ Hi), (onresult_body_final topicId _ _ _ Hi). simpl.
      destruct (isFinal result); reflexivity.
    + apply nth_error_None in Hi. lia.
  - rewrite skipn_all2 by lia. reflexivity.
Qed.

Lemma onresult_spec (topicId : jsstring) (event : SpeechRecognitionEvent) :
  onresult topicId event = flat_map (relay_result topicId) (new_finals event).
Proof. apply onresult_loop_spec. Qed.

(** The results handled are those at an index from [resultIndex] on whose
    [isFinal] is set. *)
Lemma new_finals_index (event : SpeechRecognitionEvent)
  (result : SpeechRecognitionResult) :
  In result (new_finals event)
  <-> exists i, resultIndex event <= i
                /\ nth_error (results event) i = Some result
                /\ isFinal result = true.
Proof.
  unfold new_finals. rewrite filter_In. split.
  - intros [Hin Hfinal]. apply In_nth_error in Hin. destruct Hin as [j Hj].
    exists (resultIndex event + j). rewrite nth_error_skipn in Hj.
    repeat split; [lia | exact Hj | exact Hfinal].
  - intros [i [Hle [Hi Hfinal]]]. split; [|exact Hfinal].
    apply (nth_error_In _ (i - resultIndex event)).
    rewrite nth_error_skipn.
    replace (resultIndex event + (i - resultIndex event)) with i by lia.
    exact Hi.
Qed.

Lemma transcription_relay_results (topicId : jsstring)
  (finals : list SpeechRecognitionResult) (h : Hooks) :
  transcription (commit (flat_map (relay_result topicId) finals) h)
  = transcription h
    ++ concat (map (fun r => transcript (alternative0 r)) finals).
Proof.
  revert h. induction finals as [|r finals IH]; intros h.
  - simpl. rewrite app_nil_r. reflexivity.
  - cbn [flat_map map concat]. rewrite commit_app, IH.
    simpl. rewrite app_assoc. reflexivity.
Qed.

Lemma fetches_relay_results (topicId : jsstring)
  (finals : list SpeechRecognitionResult) :
  filter is_Fetch (flat_map (relay_result topicId) finals)
  = map (fun r => Fetch relay_url
                    (relay_request (transcript (alternative0 r)) topicId))
        finals.
Proof.
  induction finals as [|r finals IH]; simpl; [reflexivity|].
  rewrite IH. reflexivity.
Qed.

(** *** Replies of the relay *)

(** A truthy [prompt] in the reply replaces the displayed prompt. *)
Lemma fetch_settled_prompt (data p : json) (h : Hooks) :
  own_prop data Relay.prompt_key = Some p ->
  truthy_json p = true ->
  fetch_settled (inr data) = [SetCurrentPrompt p]
  /\ currentPrompt (commit (fetch_settled (inr data)) h) = p.
Proof.
  intros Hp Htruthy. unfold fetch_settled.
  destruct data; try discriminate Hp.
  rewrite Hp, Htruthy. split; reflexivity.
Qed.

(** A reply without a truthy [prompt] changes nothing on the page. *)
Lemma fetch_settled_no_prompt (data : json) (h : Hooks) :
  truthy (own_prop data Relay.prompt_key) = false ->
  commit (fetch_settled (inr data)) h = h.
Proof.
  intros H. unfold fetch_settled.
  destruct data; try reflexivity.
  destruct (own_prop (JObject members) Relay.prompt_key) as [p|]; [|reflexivity].
  simpl in H. rewrite H. reflexivity.
Qed.

(** Every body the relay sends is an error body or a prompt body with a
    non-empty string. *)
Lemma relay_body_shape (T : json -> settled jsstring)
  (service : Relay.PromptService) (request : Relay.NextRequest)
  (response : Relay.NextResponse) :
  Relay.response_of (Relay.POST T service request) = inr response ->
  (exists msg, Relay.body response = Relay.error_body msg)
  \/ (exists c, Relay.body response = Relay.prompt_body (Relay.aiPrompt c)).
Proof.
  unfold Relay.response_of, Relay.POST, Relay.try_catch.
  assert (Hcatch : forall e t r,
            Relay.POST_catch e = (t, inr r) ->
            exists msg, Relay.body r = Relay.error_body msg).
  { intros e t r H. injection H as _ <-. eexists. reflexivity. }
  assert (Htry : forall t r,
            Relay.POST_try T service request = (t, inr r) ->
            (exists msg, Relay.body r = Relay.error_body msg)
            \/ (exists c, Relay.body r = Relay.prompt_body (Relay.aiPrompt c))).
  { unfold Relay.POST_try, Relay.await, Relay.bind at 1.
    destruct (Relay.request_json request) as [e|parsed]; [discriminate|].
    unfold Relay.bind at 1.
    destruct (Relay.destructure parsed) as [t0 [e|[transcription topic]]] eqn:Hd;
      [discriminate|].
    destruct (negb (truthy transcription) || negb (truthy topic)).
    - intros t r H. injection H as _ <-. left. eexists. reflexivity.
    - unfold Relay.bind at 1.
      destruct (Relay.template_arg T transcription) as [t1 [e|a]]; [discriminate|].
      unfold Relay.bind at 1.
      destruct (Relay.template_arg T topic) as [t2 [e|b]]; [discriminate|].
      unfold Relay.bind, Relay.create, Relay.emit, Relay.await, Relay.ret.
      cbv zeta iota beta.
      destruct (service (Relay.chat_params a b)) as [e|c]; [discriminate|].
      intros t r H. injection H as _ <-. right. eexists. reflexivity. }
  destruct (Relay.POST_try T service request) as [t [e|r]] eqn:Htry_eq.
  - intros H. left.
    destruct (Relay.POST_catch e) as [t' res] eqn:Hc. simpl in H. subst res.
    eapply Hcatch. exact Hc.
  - intros H. simpl in H. injection H as <-. eapply Htry. reflexivity.
Qed.

(** *** The effect of the mount *)

Lemma effect_render_fold (env : Browser) (topicId : jsstring)
  (inputs : list Input) (c : Mounted) :
  effect_render (fold_left (step env topicId) inputs c) = effect_render c.
Proof.
  revert c. induction inputs as [|i inputs IH]; intros c; simpl.
  - reflexivity.
  - rewrite IH. reflexivity.
Qed.

(** Whatever happened since the mount, the installed cleanup is the one
    of the first render. *)
Lemma effect_render_run (env : Browser) (topicId : jsstring)
  (inputs : list Input) :
  effect_render (run env topicId inputs) = initial_hooks.
Proof. unfold run. rewrite effect_render_fold. reflexivity. Qed.

(** Hence unmounting stops no track, after any history. *)
Lemma unmount_run (env : Browser) (topicId : jsstring) (inputs : list Input) :
  unmount (run env topicId inputs) = [].
Proof. unfold unmount. rewrite effect_render_run. reflexivity. Qed.

(** No handler stops a track either. *)
Lemma handle_no_TrackStop (env : Browser) (topicId : jsstring) (c : Mounted)
  (i : Input) (t : MediaStreamTrack) :
  stopped t (handle env topicId c i) = false.
Proof.
  unfold stopped. apply not_true_is_false. intros H.
  apply existsb_exists in H. destruct H as [a [Hin Ha]].
  assert (Hkind : forall x, is_TrackStop t x = true -> exists t', x = TrackStop t').
  { intros [] Hx; try discriminate Hx. eauto. }
  destruct (Hkind a Ha) as [t' ->]. clear Ha Hkind.
  destruct i as [acquired| |data|event|reply]; simpl in Hin.
  - unfold getMedia in Hin. destruct acquired as [e|ms].
    + destruct Hin as [H|[]]; discriminate H.
    + destruct (videoRef_current env); simpl in Hin;
        repeat (destruct Hin as [Hin|Hin]; [discriminate Hin|]); exact Hin.
  - destruct (isRecording (hooks c)).
    + unfold stopRecording in Hin.
      destruct (mediaRecorder (hooks c)), (recognitionRef (hooks c)),
        (0 <? length (recordedChunks (hooks c))); simpl in Hin;
        repeat (destruct Hin as [Hin|Hin]; [discriminate Hin|]); exact Hin.
    + unfold startRecording in Hin.
      destruct (stream (hooks c)); [|exact Hin].
      destruct (has_webkitSpeechRecognition env); simpl in Hin;
        repeat (destruct Hin as [Hin|Hin]; [discriminate Hin|]); exact Hin.
  - destruct (mediaRecorder (hooks c)); [|exact Hin].
    unfold ondataavailable in Hin. destruct (0 <? size data); simpl in Hin;
      repeat (destruct Hin as [Hin|Hin]; [discriminate Hin|]); exact Hin.
  - destruct (recognitionRef (hooks c)) as [recognition|]; [|exact Hin].
    rewrite onresult_spec in Hin. apply in_flat_map in Hin.
    destruct Hin as [r [_ Hin]]. simpl in Hin.
    repeat (destruct Hin as [Hin|Hin]; [discriminate Hin|]); exact Hin.
  - unfold fetch_settled in Hin.
    destruct reply as [e|data]; [destruct Hin as [H|[]]; discriminate H|].
    destruct data; simpl in Hin;
      try (destruct Hin as [H|[]]; discriminate H); try exact Hin.
    destruct (lookup_member Relay.prompt_key members) as [p|]; [|exact Hin].
    destruct (truthy_json p); [|exact Hin].
    destruct Hin as [H|[]]; discriminate H.
Qed.

(** *** Teardown *)

(** C4 at a page that acquired its camera and microphone and is then
    unmounted.  The claim asks that both tracks be stopped; the cleanup
    that runs is the closure of the first render, in which [stream] is
    [null], and it stops nothing.  The same cleanup over the current
    cells would have stopped both. *)
Theorem unmount_leaves_tracks_running :
  let page := run chrome debate [MediaSettled (inr webcam)] in
  stream (hooks page) = Some webcam
  /\ unmount page = []
  /\ stopped camera (history page ++ unmount page) = false
  /\ stopped microphone (history page ++ unmount page) = false
  /\ effect_cleanup (hooks page) = [TrackStop camera; TrackStop microphone].
Proof. cbv zeta. repeat (split; [reflexivity|]). reflexivity. Qed.

(** The same while a recording is in progress. *)
Example unmount_while_recording :
  let page := run chrome debate [MediaSettled (inr webcam); ClickButton] in
  isRecording (hooks page) = true
  /\ unmount page = []
  /\ stopped camera (history page ++ unmount page) = false
  /\ stopped microphone (history page ++ unmount page) = false.
Proof. cbv zeta. repeat (split; [reflexivity|]). reflexivity. Qed.

(** No track is ever stopped, in any history followed by the unmount. *)
Lemma tracks_never_stopped (env : Browser) (topicId : jsstring)
  (inputs : list Input) (t : MediaStreamTrack) :
  let page := run env topicId inputs in
  stopped t (history page ++ unmount page) = false.
Proof.
  cbv zeta. rewrite unmount_run, app_nil_r. unfold run.
  assert (H : forall c, stopped t (history c) = false ->
              stopped t (history (fold_left (step env topicId) inputs c)) = false).
  { induction inputs as [|i inputs IH]; intros c Hc; simpl; [exact Hc|].
    apply IH. simpl. unfold stopped in *. rewrite existsb_app, Hc.
    apply handle_no_TrackStop. }
  apply H. reflexivity.
Qed.

(** *** Recognizer results *)

(** C5, as the code has it.  For every result event, [onresult] handles
    the results at an index from [resultIndex] on whose [isFinal] is set,
    in index order, and does nothing else: for each it appends the
    transcript of the result to the accumulated transcript and sends one
    request to the relay whose body holds that transcript and the topic
    identifier.  When a reply has a [prompt] field that is a non-empty
    string, the displayed prompt becomes that string. *)
Theorem onresult_relays_final_results (topicId : jsstring)
  (event : SpeechRecognitionEvent) (h : Hooks) :
  let finals := filter isFinal (skipn (resultIndex event) (results event)) in
  onresult topicId event
  = flat_map
      (fun result =>
         [ AppendTranscription (transcript (alternative0 result));
           Fetch (lit "/api/generate-prompt")
             {| method := lit "POST";
                headers := [(lit "Content-Type", lit "application/json")];
                init_body :=
                  JObject [ (lit "transcription",
                             JString (transcript (alternative0 result)));
                            (lit "topic", JString topicId) ] |} ])
      finals
  /\ transcription (commit (onresult topicId event) h)
     = transcription h
       ++ concat (map (fun result => transcript (alternative0 result)) finals)
  /\ length (filter is_Fetch (onresult topicId event)) = length finals
  /\ forall (data : json) (s : jsstring),
       own_prop data (lit "prompt") = Some (JString s) ->
       s <> [] ->
       fetch_settled (inr data) = [SetCurrentPrompt (JString s)]
       /\ currentPrompt (commit (fetch_settled (inr data)) h) = JString s.
Proof.
  cbv zeta. split; [|split; [|split]].
  - apply onresult_spec.
  - rewrite onresult_spec. apply transcription_relay_results.
  - rewrite onresult_spec, fetches_relay_results. apply length_map.
  - intros data s Hp Hne.
    apply fetch_settled_prompt; [exact Hp|].
    destruct s; [congruence | reflexivity].
Qed.

(** The replies of this relay are of that kind: when one has a [prompt]
    field, the field is a non-empty string. *)
Lemma relay_prompt_is_text (T : json -> settled jsstring)
  (service : Relay.PromptService) (request : Relay.NextRequest)
  (response : Relay.NextResponse) (p : json) :
  Relay.response_of (Relay.POST T service request) = inr response ->
  own_prop (Relay.body response) Relay.prompt_key = Some p ->
  exists s, p = JString s /\ s <> [].
Proof.
  intros Hresp Hp.
  destruct (relay_body_shape T service request response Hresp)
    as [[msg Hb]|[c Hb]]; rewrite Hb in Hp.
  - discriminate Hp.
  - injection Hp as <-. exists (Relay.aiPrompt c).
    split; [reflexivity | apply RelayTheory.aiPrompt_nonempty].
Qed.

(** *** Stopping *)

(** C6.  When [stopRecording] runs, the download link is clicked if and
    only if the chunk list is not empty.  The download steps are then, in
    this order: an object URL is made for the blob that concatenates the
    chunks in order with type [video/webm], the link to it with the file
    name [recording.webm] is clicked, and the URL is revoked.  Starting
    and stopping at once, with no chunk collected, clicks no link. *)
Theorem stopRecording_download (env : Browser) (topicId : jsstring)
  (render : Hooks) :
  let blob := {| blob_bytes := concat (map blob_bytes (recordedChunks render));
                 blob_type := lit "video/webm" |} in
  let url := createObjectURL env blob in
  (existsb is_AnchorClick (stopRecording env render) = true
   <-> recordedChunks render <> [])
  /\ filter is_download_step (stopRecording env render)
     = match recordedChunks render with
       | [] => []
       | _ :: _ => [ UrlCreateObjectURL blob url;
                     AnchorClick url (lit "recording.webm");
                     UrlRevokeObjectURL url ]
       end
  /\ (recordedChunks render <> [] ->
      exists before,
        stopRecording env render
        = before ++ [ UrlCreateObjectURL blob url;
                      AnchorClick url (lit "recording.webm");
                      UrlRevokeObjectURL url ])
  /\ forall (page : Mounted) (s : MediaStream),
       stream (hooks page) = Some s ->
       isRecording (hooks page) = false ->
       let started := step env topicId page ClickButton in
       isRecording (hooks started) = true
       /\ filter is_download_step (handle env topicId started ClickButton) = [].
Proof.
  cbv zeta. unfold stopRecording. split; [|split; [|split]].
  - destruct (mediaRecorder render), (recognitionRef render),
      (recordedChunks render); simpl; split; congruence.
  - destruct (mediaRecorder render), (recognitionRef render),
      (recordedChunks render); reflexivity.
  - intros Hne. destruct (recordedChunks render) as [|c cs] eqn:Hc; [congruence|].
    cbn [length Nat.ltb Nat.leb]. rewrite !app_assoc. eexists. reflexivity.
  - intros page s Hs Hidle. unfold step, handle. rewrite Hidle.
    unfold startRecording. rewrite Hs.
    destruct (has_webkitSpeechRecognition env); simpl;
      try destruct (recognitionRef (hooks page)); split; reflexivity.
Qed.

(** A whole session in a browser whose recorder hands over two chunks
    before the button is pressed again: the page ends by downloading
    their concatenation. *)
Example session_with_two_chunks :
  let page := run chrome debate
                [ MediaSettled (inr webcam); ClickButton;
                  DataAvailable chunk1; DataAvailable chunk2 ] in
  recordedChunks (hooks page) = [chunk1; chunk2]
  /\ filter is_download_step (handle chrome debate page ClickButton)
     = [ UrlCreateObjectURL
           {| blob_bytes := [x1a; x45; xdf; xa3; x1f; x43; xb6];
              blob_type := lit "video/webm" |}
           (lit "blob:http://localhost:3000/0f3c");
         AnchorClick (lit "blob:http://localhost:3000/0f3c")
                     (lit "recording.webm");
         UrlRevokeObjectURL (lit "blob:http://localhost:3000/0f3c") ].
Proof. cbv zeta. split; reflexivity. Qed.

(** *** Starting *)

(** C7.  When [startRecording] runs in a render that has the stream, the
    transcript and the chunk list are empty afterwards, the recording
    flag is set, the recorder is started, and the displayed prompt is set
    to the start-speaking message.  With the recognizer available that
    message stays; without it no recognizer is made or started and the
    displayed prompt ends as the not-supported message. *)
Theorem startRecording_resets (env : Browser) (topicId : jsstring)
  (render : Hooks) (s : MediaStream) :
  stream render = Some s ->
  let acts := startRecording env topicId render in
  let after := commit acts render in
  transcription after = []
  /\ recordedChunks after = []
  /\ isRecording after = true
  /\ mediaRecorder after = Some {| recorder_stream := s |}
  /\ In (RecorderStart {| recorder_stream := s |}) acts
  /\ In (SetCurrentPrompt
           (JString (lit "Start speaking to receive AI prompts."))) acts
  /\ (has_webkitSpeechRecognition env = true ->
      currentPrompt after
      = JString (lit "Start speaking to receive AI prompts."))
  /\ (has_webkitSpeechRecognition env = false ->
      currentPrompt after
      = JString (lit "Speech recognition not supported in this browser.")
      /\ forall r, ~ In (NewSpeechRecognition r) acts
                   /\ ~ In (RecognitionStart r) acts).
Proof.
  intros Hs. cbv zeta. unfold startRecording. rewrite Hs.
  destruct (has_webkitSpeechRecognition env);
    (do 4 (split; [reflexivity|]));
    (split; [in_actions|]); (split; [in_actions|]); split.
  - intros _. reflexivity.
  - intros H; discriminate H.
  - intros H; discriminate H.
  - intros _. split; [reflexivity|].
    intros r; split; intros H; not_in_actions H.
Qed.

(** C8.  When [startRecording] runs in a render without the stream, it
    does nothing: it makes no recorder and no recognizer, calls nothing,
    and leaves every cell as it was. *)
Theorem startRecording_without_stream (env : Browser) (topicId : jsstring)
  (render : Hooks) :
  stream render = None ->
  startRecording env topicId render = []
  /\ commit (startRecording env topicId render) render = render.
Proof.
  intros Hs. unfold startRecording. rewrite Hs. split; reflexivity.
Qed.

(** On the page: the button pressed before the stream is there leaves
    the page as it was. *)
Lemma click_without_stream (env : Browser) (topicId : jsstring)
  (page : Mounted) :
  stream (hooks page) = None ->
  isRecording (hooks page) = false ->
  step env topicId page ClickButton = page.
Proof.
  intros Hs Hidle. unfold step, handle. rewrite Hidle.
  unfold startRecording. rewrite Hs. simpl. rewrite app_nil_r.
  destruct page; reflexivity.
Qed.

(** *** The statements at sample pages *)

Lemma onresult_relays_final_results_witness :
  onresult debate two_new_results
  = [ AppendTranscription (lit "that taxes ");
      Fetch (lit "/api/generate-prompt")
        {| method := lit "POST";
           headers := [(lit "Content-Type", lit "application/json")];
           init_body :=
             JObject [ (lit "transcription", JString (lit "that taxes "));
                       (lit "topic", JString (lit "debate")) ] |} ]
  /\ currentPrompt
       (commit (fetch_settled
                  (inr (JObject [(lit "prompt",
                                  JString (lit "Can you elaborate on a specific project?"))])))
               recording_hooks)
     = JString (lit "Can you elaborate on a specific project?").
Proof.
  destruct (onresult_relays_final_results debate two_new_results recording_hooks)
    as [Hacts [_ [_ Hreply]]].
  split.
  - exact Hacts.
  - apply (Hreply
             (JObject [(lit "prompt",
                        JString (lit "Can you elaborate on a specific project?"))])
             (lit "Can you elaborate on a specific project?")).
    + reflexivity.
    + discriminate.
Defined.

(** C5 as it is written fails on a reply whose [prompt] is the empty
    string: the field is there, and the displayed prompt is not replaced
    by it, because the handler tests [data.prompt] for truthiness. *)
Lemma empty_prompt_is_not_shown :
  own_prop (JObject [(lit "prompt", JString [])]) (lit "prompt")
  = Some (JString [])
  /\ fetch_settled (inr (JObject [(lit "prompt", JString [])])) = []
  /\ currentPrompt
       (commit (fetch_settled (inr (JObject [(lit "prompt", JString [])])))
               recording_hooks)
     = JString (lit "Present your main argument.")
  /\ currentPrompt
       (commit (fetch_settled (inr (JObject [(lit "prompt", JString [])])))
               recording_hooks)
     <> JString [].
Proof.
  split; [reflexivity|]. split; [reflexivity|].
  split; [reflexivity | discriminate].
Qed.

Lemma stopRecording_download_witness :
  (recordedChunks recording_hooks <> [] ->
   exists before,
     stopRecording chrome recording_hooks
     = before
       ++ [ UrlCreateObjectURL
              {| blob_bytes := [x1a; x45; xdf; xa3; x1f; x43; xb6];
                 blob_type := lit "video/webm" |}
              (lit "blob:http://localhost:3000/0f3c");
            AnchorClick (lit "blob:http://localhost:3000/0f3c")
                        (lit "recording.webm");
            UrlRevokeObjectURL (lit "blob:http://localhost:3000/0f3c") ])
  /\ filter is_download_step
       (handle chrome debate
          (step chrome debate (run chrome debate [MediaSettled (inr webcam)])
                ClickButton)
          ClickButton)
     = [].
Proof.
  destruct (stopRecording_download chrome debate recording_hooks)
    as [_ [_ [Hdl Hscenario]]].
  split.
  - exact Hdl.
  - apply (Hscenario (run chrome debate [MediaSettled (inr webcam)]) webcam);
      reflexivity.
Defined.

Lemma startRecording_resets_witness :
  stream ready_hooks = Some webcam
  /\ has_webkitSpeechRecognition firefox = false
  /\ currentPrompt (commit (startRecording firefox debate ready_hooks) ready_hooks)
     = JString (lit "Speech recognition not supported in this browser.")
  /\ isRecording (commit (startRecording firefox debate ready_hooks) ready_hooks)
     = true.
Proof.
  assert (Hs : stream ready_hooks = Some webcam) by reflexivity.
  assert (Hcap : has_webkitSpeechRecognition firefox = false) by reflexivity.
  destruct (startRecording_resets firefox debate ready_hooks webcam Hs)
    as [_ [_ [Hrec [_ [_ [_ [_ Hno]]]]]]].
  destruct (Hno Hcap) as [Hprompt _].
  repeat split; assumption.
Defined.

Lemma startRecording_without_stream_witness :
  stream initial_hooks = None
  /\ startRecording chrome debate initial_hooks = []
  /\ commit (startRecording chrome debate initial_hooks) initial_hooks
     = initial_hooks.
Proof.
  split; [reflexivity|].
  apply (startRecording_without_stream chrome debate initial_hooks).
  reflexivity.
Defined.

End SessionTheory.

(* ===================================================================== *)
(** ** Further behaviour of the relay *)
(* ===================================================================== *)

Module RelayBehaviour.

Import Relay.

(** *** Every run of the handler *)

Lemma template_arg_pure (T : json -> settled jsstring) (v : option json) :
  template_arg T v = ([], snd (template_arg T v)).
Proof. destruct v as [[]|]; reflexivity. Qed.

Lemma destructure_parsed (parsed : json) :
  parsed <> JNull ->
  destructure parsed
  = ([], inr (own_prop parsed transcription_key, own_prop parsed topic_key)).
Proof. destruct parsed; intros H; try reflexivity. congruence. Qed.

(** The run on a body that parsed to something other than [null]. *)
Lemma POST_parsed (T : json -> settled jsstring) (service : PromptService)
  (request : NextRequest) (parsed : json) :
  request_json request = inr parsed ->
  parsed <> JNull ->
  POST T service request
  = if negb (truthy (own_prop parsed transcription_key))
       || negb (truthy (own_prop parsed topic_key))
    then ([], inr (NextResponse_json (error_body missing_message) (Some 400%N)))
    else
      match snd (template_arg T (own_prop parsed transcription_key)) with
      | inl e => POST_catch e
      | inr t =>
          match snd (template_arg T (own_prop parsed topic_key)) with
          | inl e => POST_catch e
          | inr p =>
              match service (chat_params t p) with
              | inl e => (ServiceCall (chat_params t p) :: fst (POST_catch e),
                          snd (POST_catch e))
              | inr c => ([ServiceCall (chat_params t p)],
                          inr (NextResponse_json (prompt_body (aiPrompt c)) None))
              end
          end
      end.
Proof.
  intros Hreq Hnull. unfold POST, POST_try, await. rewrite Hreq.
  unfold bind at 1 2. rewrite (destructure_parsed parsed Hnull). cbv zeta iota beta.
  destruct (negb (truthy (own_prop parsed transcription_key))
            || negb (truthy (own_prop parsed topic_key))); [reflexivity|].
  unfold bind at 1.
  rewrite (template_arg_pure T (own_prop parsed transcription_key)).
  destruct (snd (template_arg T (own_prop parsed transcription_key))) as [e|t];
    [reflexivity|].
  unfold bind at 1.
  rewrite (template_arg_pure T (own_prop parsed topic_key)).
  destruct (snd (template_arg T (own_prop parsed topic_key))) as [e|p];
    [reflexivity|].
  unfold create, emit, await, ret. unfold bind. cbn [snd].
  destruct (service (chat_params t p)); reflexivity.
Qed.

(** The four ways a run can go. *)
Lemma POST_outcomes (T : json -> settled jsstring) (service : PromptService)
  (request : NextRequest) :
  POST T service request
  = ([], inr (NextResponse_json (error_body missing_message) (Some 400%N)))
  \/ (exists e,
        POST T service request
        = ([ConsoleError log_label e],
           inr (NextResponse_json (error_body failed_message) (Some 500%N))))
  \/ (exists t p e,
        service (chat_params t p) = inl e
        /\ POST T service request
           = ([ServiceCall (chat_params t p); ConsoleError log_label e],
              inr (NextResponse_json (error_body failed_message) (Some 500%N))))
  \/ (exists t p c,
        service (chat_params t p) = inr c
        /\ POST T service request
           = ([ServiceCall (chat_params t p)],
              inr (NextResponse_json (prompt_body (aiPrompt c)) None))).
Proof.
  destruct (request_json request) as [e|parsed] eqn:Hreq.
  - right. left. exists e. apply RelayTheory.POST_rejected. exact Hreq.
  - assert (Hdec : parsed = JNull \/ parsed <> JNull)
      by (destruct parsed; auto; right; discriminate).
    destruct Hdec as [->|Hnull].
    + right. left. eexists. apply RelayTheory.POST_null. exact Hreq.
    + rewrite (POST_parsed T service request parsed Hreq Hnull).
      destruct (negb (truthy (own_prop parsed transcription_key))
                || negb (truthy (own_prop parsed topic_key))); [left; reflexivity|].
      destruct (snd (template_arg T (own_prop parsed transcription_key))) as [e|t];
        [right; left; eexists; reflexivity|].
      destruct (snd (template_arg T (own_prop parsed topic_key))) as [e|p];
        [right; left; eexists; reflexivity|].
      destruct (service (chat_params t p)) as [e|c] eqn:Hsvc.
      * right. right. left. exists t, p, e. split; [exact Hsvc | reflexivity].
      * right. right. right. exists t, p, c. split; [exact Hsvc | reflexivity].
Qed.

(** *** The prompt has no whitespace around it *)

Lemma aiPrompt_head (completion : ChatCompletion) (c : code_unit)
  (rest : jsstring) :
  aiPrompt completion = c :: rest -> isWhiteSpace c = false.
Proof.
  unfold aiPrompt, trimmed_content.
  destruct (completion_text completion) as [text|].
  - destruct (trim text) as [|d more] eqn:Htrim.
    + intros H. injection H as <- _. reflexivity.
    + intros H. injection H as <- _.
      apply (RelayTheory.trim_head text d more Htrim).
  - intros H. injection H as <- _. reflexivity.
Qed.

Lemma last_unit_of_fallback (front : jsstring) (c : code_unit) :
  fallback_prompt = front ++ [c] -> isWhiteSpace c = false.
Proof.
  intros H. apply (f_equal (@rev _)) in H.
  rewrite rev_app_distr in H. simpl in H. injection H as <- _. reflexivity.
Qed.

Lemma aiPrompt_last (completion : ChatCompletion) (front : jsstring)
  (c : code_unit) :
  aiPrompt completion = front ++ [c] -> isWhiteSpace c = false.
Proof.
  unfold aiPrompt, trimmed_content.
  destruct (completion_text completion) as [text|].
  - destruct (trim text) as [|d more] eqn:Htrim.
    + apply last_unit_of_fallback.
    + intros H. apply (RelayTheory.trim_last text front c).
      rewrite Htrim. exact H.
  - apply last_unit_of_fallback.
Qed.

(** *** Properties of every run *)

(** X1.  Whatever the request, the service and the conversion do, the
    handler returns a response and does not throw, and the response is
    one of three: status 200 with a body [{prompt: s}] for a non-empty
    [s]; status 400 with the missing-field error; status 500 with the
    generic error. *)
Theorem response_is_one_of_three (T : json -> settled jsstring)
  (service : PromptService) (request : NextRequest) :
  exists response,
    response_of (POST T service request) = inr response
    /\ ((status response = 200%N
         /\ exists s, s <> []
                      /\ body response = JObject [(lit "prompt", JString s)])
        \/ (status response = 400%N
            /\ body response
               = JObject [(lit "error",
                           JString (lit "Missing transcription or topic"))])
        \/ (status response = 500%N
            /\ body response
               = JObject [(lit "error",
                           JString (lit "Failed to generate prompt"))])).
Proof.
  unfold response_of.
  destruct (POST_outcomes T service request)
    as [H|[[e H]|[[t [p [e [_ H]]]]|[t [p [c [_ H]]]]]]]; rewrite H;
    eexists; (split; [reflexivity|]).
  - right. left. split; reflexivity.
  - right. right. split; reflexivity.
  - right. right. split; reflexivity.
  - left. split; [reflexivity|]. exists (aiPrompt c).
    split; [apply RelayTheory.aiPrompt_nonempty | reflexivity].
Qed.

(** X2.  On every request the handler calls the Prompt Service at most
    once.  A 200 response comes from exactly one call, and its prompt is
    made from the completion that call returned; a 400 response comes
    from no call. *)
Theorem service_called_at_most_once (T : json -> settled jsstring)
  (service : PromptService) (request : NextRequest) :
  exists response,
    response_of (POST T service request) = inr response
    /\ (length (calls_of (POST T service request)) <= 1)%nat
    /\ (status response = 200%N ->
        exists params completion,
          calls_of (POST T service request) = [params]
          /\ service params = inr completion
          /\ body response
             = JObject [(lit "prompt", JString (aiPrompt completion))])
    /\ (status response = 400%N -> calls_of (POST T service request) = []).
Proof.
  unfold response_of, calls_of.
  destruct (POST_outcomes T service request)
    as [H|[[e H]|[[t [p [e [Hsvc H]]]]|[t [p [c [Hsvc H]]]]]]]; rewrite H;
    eexists; (split; [reflexivity|]); cbn [fst service_calls length];
    (split; [lia|]); split; cbn [status NextResponse_json];
    try (intros Hst; discriminate Hst); try (intros _; reflexivity).
  intros _. exists (chat_params t p), c.
  split; [reflexivity|]. split; [exact Hsvc | reflexivity].
Qed.



(** X4.  A field that is present but holds [null], [false] or a zero is
    refused like a missing one: status 400 with the missing-field error,
    no call to the service, nothing logged. *)
Theorem falsy_value_is_400 (T : json -> settled jsstring)
  (service : PromptService) (request : NextRequest) (parsed v : json) :
  request_json request = inr parsed ->
  own_prop parsed (lit "transcription") = Some v
  \/ own_prop parsed (lit "topic") = Some v ->
  falsy_non_string v ->
  POST T service request
  = ([], inr {| status := 400;
                body := JObject [(lit "error",
                                  JString (lit "Missing transcription or topic"))] |}).
Proof.
  intros Hreq Hfield Hfalsy.
  assert (Hv : truthy_json v = false).
  { destruct Hfalsy as [->|[->|[sign ->]]]; reflexivity. }
  apply (RelayTheory.POST_falsy T service request parsed Hreq).
  - intros ->. destruct Hfield as [H|H]; discriminate H.
  - destruct Hfield as [H|H]; [left|right].
    + change (lit "transcription") with transcription_key in H.
      rewrite H. exact Hv.
    + change (lit "topic") with topic_key in H. rewrite H. exact Hv.
Qed.

(** X5.  The validation does not ask for strings.  A [transcription]
    that is any truthy value other than a string (a non-zero number,
    [true], an array, an object) passes; the text the template conversion
    gives for it is what the single call to the service carries. *)
Theorem truthy_value_is_coerced (T : json -> settled jsstring)
  (service : PromptService) (request : NextRequest) (parsed v : json)
  (t p : jsstring) :
  request_json request = inr parsed ->
  own_prop parsed (lit "transcription") = Some v ->
  truthy_json v = true ->
  (forall s, v <> JString s) ->
  T v = inr t ->
  holds_text (own_prop parsed (lit "topic")) p ->
  calls_of (POST T service request) = [chat_params t p].
Proof.
  intros Hreq Hv Htruthy Hnot Hcoerce [Hp Hpne].
  change (lit "transcription") with transcription_key in Hv.
  change (lit "topic") with topic_key in Hp.
  assert (Hnull : parsed <> JNull) by (intros ->; discriminate Hv).
  unfold calls_of. rewrite (POST_parsed T service request parsed Hreq Hnull).
  rewrite Hv, Hp. cbn [truthy]. rewrite Htruthy.
  destruct p as [|p0 p']; [congruence|]. cbn [truthy_json negb orb].
  assert (Harg : snd (template_arg T (Some v)) = inr t).
  { destruct v; try (cbn; exact Hcoerce). exfalso. eapply Hnot. reflexivity. }
  rewrite Harg. cbn [template_arg ret snd].
  destruct (service (chat_params t (p0 :: p'))); reflexivity.
Qed.

(** X6.  When the template conversion of a truthy field that is not a
    string throws, the handler answers 500 with the generic error, logs
    the error thrown, and does not call the service. *)
Theorem failed_coercion_is_500 (T : json -> settled jsstring)
  (service : PromptService) (request : NextRequest) (parsed v : json)
  (p : jsstring) (e : js_error) :
  request_json request = inr parsed ->
  own_prop parsed (lit "transcription") = Some v ->
  truthy_json v = true ->
  (forall s, v <> JString s) ->
  T v = inl e ->
  holds_text (own_prop parsed (lit "topic")) p ->
  POST T service request
  = ([ConsoleError (lit "Error generating prompt:") e],
     inr {| status := 500;
            body := JObject [(lit "error",
                              JString (lit "Failed to generate prompt"))] |}).
Proof.
  intros Hreq Hv Htruthy Hnot Hcoerce [Hp Hpne].
  change (lit "transcription") with transcription_key in Hv.
  change (lit "topic") with topic_key in Hp.
  assert (Hnull : parsed <> JNull) by (intros ->; discriminate Hv).
  rewrite (POST_parsed T service request parsed Hreq Hnull).
  rewrite Hv, Hp. cbn [truthy]. rewrite Htruthy.
  destruct p as [|p0 p']; [congruence|]. cbn [truthy_json negb orb].
  assert (Harg : snd (template_arg T (Some v)) = inl e).
  { destruct v; try (cbn; exact Hcoerce). exfalso. eapply Hnot. reflexivity. }
  rewrite Harg. reflexivity.
Qed.

(** X7.  The prompt of a 200 response neither begins nor ends with a
    whitespace code unit. *)
Theorem prompt_has_no_surrounding_whitespace (T : json -> settled jsstring)
  (service : PromptService) (request : NextRequest) (response : NextResponse)
  (s : jsstring) :
  response_of (POST T service request) = inr response ->
  body response = JObject [(lit "prompt", JString s)] ->
  (forall c rest, s = c :: rest -> isWhiteSpace c = false)
  /\ (forall front c, s = front ++ [c] -> isWhiteSpace c = false).
Proof.
  unfold response_of. intros Hresp Hbody.
  destruct (POST_outcomes T service request)
    as [H|[[e H]|[[t [p [e [_ H]]]]|[t [p [c [_ H]]]]]]];
    rewrite H in Hresp; cbn [snd] in Hresp; injection Hresp as <-;
    cbn [body NextResponse_json] in Hbody; try discriminate Hbody.
  injection Hbody as <-. split.
  - intros d rest. apply aiPrompt_head.
  - intros front d. apply aiPrompt_last.
Qed.

(** *** The statements at sample requests *)

Lemma falsy_value_is_400_witness :
  POST no_coercion elaborating_service zero_request
  = ([], inr {| status := 400;
                body := JObject [(lit "error",
                                  JString (lit "Missing transcription or topic"))] |}).
Proof.
  apply (falsy_value_is_400 no_coercion elaborating_service zero_request
           (JObject [ (transcription_key, JNumber (S754_zero true));
                      (topic_key, JString (lit "debate")) ])
           (JNumber (S754_zero true))).
  - reflexivity.
  - left. reflexivity.
  - right. right. exists true. reflexivity.
Defined.

Lemma truthy_value_is_coerced_witness :
  calls_of (POST printing_coercion elaborating_service numeric_request)
  = [chat_params (lit "42") (lit "debate")].
Proof.
  apply (truthy_value_is_coerced printing_coercion elaborating_service
           numeric_request
           (JObject [ (transcription_key, forty_two);
                      (topic_key, JString (lit "debate")) ])
           forty_two (lit "42") (lit "debate")).
  - reflexivity.
  - reflexivity.
  - reflexivity.
  - intros s H. discriminate H.
  - reflexivity.
  - split; [reflexivity | discriminate].
Defined.

Lemma failed_coercion_is_500_witness :
  POST no_coercion elaborating_service nested_request
  = ([ConsoleError (lit "Error generating prompt:")
        {| error_name := lit "TypeError";
           error_message := lit "Cannot convert object to primitive value" |}],
     inr {| status := 500;
            body := JObject [(lit "error",
                              JString (lit "Failed to generate prompt"))] |}).
Proof.
  apply (failed_coercion_is_500 no_coercion elaborating_service nested_request
           (JObject [ (transcription_key, JObject [(lit "toString", JNull)]);
                      (topic_key, JString (lit "debate")) ])
           (JObject [(lit "toString", JNull)]) (lit "debate")).
  - reflexivity.
  - reflexivity.
  - reflexivity.
  - intros s H. discriminate H.
  - reflexivity.
  - split; [reflexivity | discriminate].
Defined.

Lemma prompt_has_no_surrounding_whitespace_witness :
  (forall c rest,
     lit "Can you elaborate on a specific project?" = c :: rest ->
     isWhiteSpace c = false)
  /\ (forall front c,
        lit "Can you elaborate on a specific project?" = front ++ [c] ->
        isWhiteSpace c = false).
Proof.
  apply (prompt_has_no_surrounding_whitespace no_coercion elaborating_service
           interview_request
           {| status := 200;
              body := JObject [(lit "prompt",
                                JString (lit "Can you elaborate on a specific project?"))] |}).
  - reflexivity.
  - reflexivity.
Defined.

End RelayBehaviour.

(* ===================================================================== *)
(** ** The topic catalog and the home page *)
(* ===================================================================== *)

Module CatalogTheory.

Import Catalog.

(** Case analysis on membership in a table written out in full. *)
Ltac each_entry H :=
  cbn [In] in H;
  repeat (destruct H as [H|H]; [subst|]); [.. | contradiction H].

(** X8.  The identifiers of the catalog are pairwise distinct, so the
    lookup [topics.find(t => t.id === topicId)] gives, for the identifier
    of a catalog topic, that topic; and whatever it gives is a catalog
    topic with the identifier asked for. *)
Theorem topic_of_catalog :
  NoDup (map id topics)
  /\ (forall topic, In topic topics -> topic_of (id topic) = Some topic)
  /\ (forall topicId topic,
        topic_of topicId = Some topic ->
        In topic topics /\ id topic = topicId).
Proof.
  split; [|split].
  - repeat constructor; cbn [In map]; intros H;
      repeat (destruct H as [H|H]; [discriminate H|]); exact H.
  - intros topic H. each_entry H; reflexivity.
  - intros topicId topic H. unfold topic_of in H.
    apply find_some in H. destruct H as [Hin Heq]. split; [exact Hin|].
    unfold jsstring_eqb in Heq.
    destruct (list_eq_dec N.eq_dec (id topic) topicId); [assumption | discriminate].
Qed.

(** X9.  From the grid, a click on the card of a catalog topic shows the
    recording page of that topic, headed by the topic's name followed by
    [" Session"]; [onBack] shows the grid again, one card per topic in
    catalog order.  An identifier that is not in the catalog gets the
    heading [" Session"] alone, and an empty identifier does not leave
    the grid. *)
Theorem home_navigation :
  Home None = TopicGrid (map card_of topics)
  /\ Home onBack = Home None
  /\ (forall topic,
        In topic topics ->
        click_card (card_of topic) = RecordingView (id topic)
        /\ heading (id topic) = name topic ++ lit " Session")
  /\ (forall topicId,
        topic_of topicId = None -> heading topicId = lit " Session")
  /\ (forall topicId,
        Home (handleTopicSelect topicId)
        = match topicId with
          | [] => TopicGrid (map card_of topics)
          | _ :: _ => RecordingView topicId
          end).
Proof.
  split; [reflexivity|]. split; [reflexivity|]. split; [|split].
  - intros topic H. each_entry H; split; reflexivity.
  - intros topicId H. unfold heading. rewrite H. reflexivity.
  - intros [|c rest]; reflexivity.
Qed.

(** The table [prompts] has exactly one member per catalog topic, under
    the topic's identifier and in catalog order; each member holds five
    prompts, the first of which is the same welcome. *)
Lemma prompts_cover_catalog :
  map fst prompts = map id topics
  /\ forall topic,
       In topic topics ->
       exists list,
         prompts_at (id topic) prompts = Some list
         /\ length list = 5
         /\ nth_error list 0
            = Some (lit "Welcome! Introduce yourself and state your topic.").
Proof.
  split; [reflexivity|].
  intros topic H. each_entry H; eexists; (split; [reflexivity|]);
    split; reflexivity.
Qed.

End CatalogTheory.

(* ===================================================================== *)
(** ** Further behaviour of the recording session *)
(* ===================================================================== *)

Module SessionBehaviour.

Import Session.

(** *** What each handler does to the cells *)

Lemma hooks_step (env : Browser) (topicId : jsstring) (c : Mounted) (i : Input) :
  hooks (step env topicId c i) = commit (handle env topicId c i) (hooks c).
Proof. reflexivity. Qed.

Lemma history_step (env : Browser) (topicId : jsstring) (c : Mounted)
  (i : Input) :
  history (step env topicId c i) = history c ++ handle env topicId c i.
Proof. reflexivity. Qed.

Lemma commit_relay_results (topicId : jsstring)
  (finals : list SpeechRecognitionResult) (h : Hooks) :
  commit (flat_map (relay_result topicId) finals) h
  = apply_action
      (AppendTranscription
         (concat (map (fun r => transcript (alternative0 r)) finals))) h.
Proof.
  revert h. induction finals as [|r finals IH]; intros h.
  - destruct h. cbn. rewrite app_nil_r. reflexivity.
  - cbn [flat_map map concat]. rewrite SessionTheory.commit_app, IH.
    destruct h. cbn. rewrite app_assoc. reflexivity.
Qed.

Lemma commit_onresult (topicId : jsstring) (event : SpeechRecognitionEvent)
  (h : Hooks) :
  commit (onresult topicId event) h
  = apply_action
      (AppendTranscription
         (concat (map (fun r => transcript (alternative0 r))
                      (new_finals event)))) h.
Proof. rewrite SessionTheory.onresult_spec. apply commit_relay_results. Qed.

Lemma commit_ondataavailable (data : Blob) (h : Hooks) :
  commit (ondataavailable data) h
  = if 0 <? size data then apply_action (PushRecordedChunk data) h else h.
Proof. unfold ondataavailable. destruct (0 <? size data); reflexivity. Qed.

(** A reply changes the displayed prompt at most. *)
Lemma commit_fetch_settled (reply : settled json) (h : Hooks) :
  exists v, commit (fetch_settled reply) h = apply_action (SetCurrentPrompt v) h.
Proof.
  assert (Hsame : h = apply_action (SetCurrentPrompt (currentPrompt h)) h)
    by (destruct h; reflexivity).
  destruct reply as [e|data]; [exists (currentPrompt h); exact Hsame|].
  unfold fetch_settled.
  destruct data; try (exists (currentPrompt h); exact Hsame).
  destruct (own_prop (JObject members) Relay.prompt_key) as [p|];
    [|exists (currentPrompt h); exact Hsame].
  destruct (truthy_json p); [exists p; reflexivity|].
  exists (currentPrompt h); exact Hsame.
Qed.

Lemma commit_getMedia (env : Browser) (acquired : settled MediaStream)
  (h : Hooks) :
  commit (getMedia env acquired) h
  = match acquired with
    | inr mediaStream => apply_action (SetStream mediaStream) h
    | inl _ => h
    end.
Proof.
  destruct acquired as [e|ms]; [reflexivity|].
  unfold getMedia. destruct (videoRef_current env); reflexivity.
Qed.

Lemma commit_stopRecording (env : Browser) (h : Hooks) :
  commit (stopRecording env h) h
  = mkHooks false (JString stopped_message) (stream h) (mediaRecorder h)
            (recordedChunks h) (transcription h) (recognitionRef h).
Proof.
  destruct h as [rec prompt str recorder chunks text ref].
  unfold stopRecording. cbn [mediaRecorder recognitionRef recordedChunks].
  destruct recorder, ref, chunks; reflexivity.
Qed.

Lemma commit_startRecording (env : Browser) (topicId : jsstring) (h : Hooks)
  (s : MediaStream) :
  stream h = Some s ->
  commit (startRecording env topicId h) h
  = if has_webkitSpeechRecognition env then
      mkHooks true (JString start_speaking_message) (Some s)
              (Some {| recorder_stream := s |}) [] []
              (Some {| continuous := true; interimResults := false;
                       onresult_topicId := topicId |})
    else
      mkHooks true (JString not_supported_message) (Some s)
              (Some {| recorder_stream := s |}) [] [] (recognitionRef h).
Proof.
  destruct h as [rec prompt str recorder chunks text ref].
  cbn [stream]. intros ->. unfold startRecording. cbn [stream recognitionRef].
  destruct (has_webkitSpeechRecognition env); reflexivity.
Qed.

(** The download steps of [stopRecording]. *)
Lemma download_steps (env : Browser) (h : Hooks) :
  filter is_download_step (stopRecording env h)
  = match recordedChunks h with
    | [] => []
    | _ :: _ =>
        [ UrlCreateObjectURL (new_Blob (recordedChunks h) webm_type)
            (createObjectURL env (new_Blob (recordedChunks h) webm_type));
          AnchorClick
            (createObjectURL env (new_Blob (recordedChunks h) webm_type))
            download_name;
          UrlRevokeObjectURL
            (createObjectURL env (new_Blob (recordedChunks h) webm_type)) ]
    end.
Proof.
  unfold stopRecording.
  destruct (mediaRecorder h), (recognitionRef h), (recordedChunks h);
    reflexivity.
Qed.

(** *** The invariant of the cells *)

(** Closes the parts of the invariant that hold at once. *)
Ltac inv_part :=
  try solve [ assumption
            | intros; discriminate
            | intros; split; discriminate
            | auto ].

Lemma invariant_mount (env : Browser) (topicId : jsstring) :
  session_invariant env topicId (hooks mount).
Proof.
  unfold session_invariant. cbn. repeat split; try discriminate.
  all: intros; discriminate.
Qed.

Lemma invariant_step (env : Browser) (topicId : jsstring) (c : Mounted)
  (i : Input) :
  session_invariant env topicId (hooks c) ->
  session_invariant env topicId (hooks (step env topicId c i)).
Proof.
  rewrite hooks_step. destruct c as [h er hist]. cbn [hooks].
  intros Hinv. destruct i as [acquired| |data|event|reply]; cbn [handle hooks].
  - rewrite commit_getMedia. destruct acquired as [e|ms]; [exact Hinv|].
    destruct h as [rec prompt str recorder chunks text ref].
    unfold session_invariant in *. cbn in *.
    destruct Hinv as [H1 [H2 [H3 H4]]].
    split; [|split; [|split]]; inv_part.
    intros Hrec. split; [discriminate | apply (H1 Hrec)].
  - destruct (isRecording h) eqn:Hrec.
    + rewrite commit_stopRecording.
      unfold session_invariant in *. cbn.
      destruct Hinv as [H1 [H2 [H3 H4]]].
      split; [|split; [|split]]; inv_part.
      intros Hs. destruct (H4 Hs) as [Hfalse _]. congruence.
    + destruct (stream h) as [s|] eqn:Hs.
      * rewrite (commit_startRecording env topicId h s Hs).
        unfold session_invariant in *.
        destruct Hinv as [H1 [H2 [H3 H4]]].
        destruct (has_webkitSpeechRecognition env) eqn:Hcap; cbn;
          (split; [|split; [|split]]); inv_part.
        intros r Hr. injection Hr as <-. split; reflexivity.
      * unfold startRecording. rewrite Hs. exact Hinv.
  - destruct (mediaRecorder h) as [r|] eqn:Hrecorder; [|exact Hinv].
    rewrite commit_ondataavailable. destruct (0 <? size data); [|exact Hinv].
    destruct h as [rec prompt str recorder chunks text ref].
    unfold session_invariant in *. cbn in *.
    destruct Hinv as [H1 [H2 [H3 H4]]].
    split; [|split; [|split]]; inv_part.
    intros Hs. destruct (H4 Hs) as [_ [Habs _]]. congruence.
  - destruct (recognitionRef h) as [r|] eqn:Href; [|exact Hinv].
    rewrite commit_onresult.
    destruct h as [rec prompt str recorder chunks text ref].
    unfold session_invariant in *. cbn in *.
    destruct Hinv as [H1 [H2 [H3 H4]]].
    split; [|split; [|split]]; inv_part.
    intros Hs. destruct (H4 Hs) as [_ [_ [Habs _]]]. congruence.
  - destruct (commit_fetch_settled reply h) as [v ->].
    destruct h as [rec prompt str recorder chunks text ref].
    unfold session_invariant in *. cbn in *. exact Hinv.
Qed.

Lemma invariant_fold (env : Browser) (topicId : jsstring)
  (inputs : list Input) (c : Mounted) :
  session_invariant env topicId (hooks c) ->
  session_invariant env topicId
    (hooks (fold_left (step env topicId) inputs c)).
Proof.
  revert c. induction inputs as [|i inputs IH]; intros c Hc; [exact Hc|].
  cbn [fold_left]. apply IH. apply invariant_step. exact Hc.
Qed.

Lemma invariant_run (env : Browser) (topicId : jsstring)
  (inputs : list Input) :
  session_invariant env topicId (hooks (run env topicId inputs)).
Proof. unfold run. apply invariant_fold. apply invariant_mount. Qed.

(** *** Collecting chunks *)

Lemma step_DataAvailable (env : Browser) (topicId : jsstring) (page : Mounted)
  (r : MediaRecorder) (data : Blob) :
  mediaRecorder (hooks page) = Some r ->
  hooks (step env topicId page (DataAvailable data))
  = if 0 <? size data
    then apply_action (PushRecordedChunk data) (hooks page)
    else hooks page.
Proof.
  intros Hr. rewrite hooks_step. cbn [handle]. rewrite Hr.
  apply commit_ondataavailable.
Qed.

Lemma collect_fold (env : Browser) (topicId : jsstring) (datas : list Blob) :
  forall (page : Mounted) (r : MediaRecorder),
    mediaRecorder (hooks page) = Some r ->
    hooks (fold_left (step env topicId) (map DataAvailable datas) page)
    = apply_action
        (SetRecordedChunks
           (recordedChunks (hooks page)
            ++ filter (fun data => 0 <? size data) datas))
        (hooks page).
Proof.
  induction datas as [|data datas IH]; intros page r Hr.
  - cbn [map fold_left filter]. rewrite app_nil_r.
    destruct (hooks page); reflexivity.
  - cbn [map fold_left filter].
    pose proof (step_DataAvailable env topicId page r data Hr) as Hstep.
    assert (Hr' : mediaRecorder (hooks (step env topicId page (DataAvailable data)))
                  = Some r).
    { rewrite Hstep. destruct (0 <? size data); [|exact Hr].
      destruct (hooks page); exact Hr. }
    rewrite (IH _ r Hr'), Hstep.
    destruct (0 <? size data); [|reflexivity].
    destruct (hooks page); cbn. rewrite <- app_assoc. reflexivity.
Qed.

Lemma bytes_of_nonempty (datas : list Blob) :
  concat (map blob_bytes (filter (fun data => 0 <? size data) datas))
  = concat (map blob_bytes datas).
Proof.
  induction datas as [|data datas IH]; [reflexivity|].
  cbn [filter map concat]. destruct (0 <? size data) eqn:Hsize.
  - cbn [map concat]. rewrite IH. reflexivity.
  - rewrite IH. unfold size in Hsize. apply Nat.ltb_ge in Hsize.
    destruct (blob_bytes data); [reflexivity | cbn in Hsize; lia].
Qed.

Lemma filter_nil_existsb {A} (f : A -> bool) (l : list A) :
  existsb f l = match filter f l with [] => false | _ :: _ => true end.
Proof.
  induction l as [|a l IH]; [reflexivity|].
  cbn. destruct (f a); [reflexivity | exact IH].
Qed.

(** X11.  While the page has a recorder, a run of [dataavailable] events
    adds to the chunk list exactly the blobs of positive size, in the
    order they were delivered, and changes no other cell. *)
Theorem chunks_collected_in_order (env : Browser) (topicId : jsstring)
  (page : Mounted) (r : MediaRecorder) (datas : list Blob) :
  mediaRecorder (hooks page) = Some r ->
  let after := hooks (fold_left (step env topicId)
                                (map DataAvailable datas) page) in
  recordedChunks after
  = recordedChunks (hooks page) ++ filter (fun data => 0 <? size data) datas
  /\ isRecording after = isRecording (hooks page)
  /\ currentPrompt after = currentPrompt (hooks page)
  /\ stream after = stream (hooks page)
  /\ mediaRecorder after = mediaRecorder (hooks page)
  /\ transcription after = transcription (hooks page)
  /\ recognitionRef after = recognitionRef (hooks page).
Proof.
  intros Hr. cbv zeta. rewrite (collect_fold env topicId datas page r Hr).
  destruct (hooks page). repeat split.
Qed.

(** X12.  A whole recording: from an idle page that has its stream, the
    button is pressed, the recorder delivers [datas], the button is
    pressed again.  A file is downloaded exactly when some delivered blob
    was not empty, and its bytes are those of all delivered blobs in
    order, under type [video/webm] and name [recording.webm]; whatever
    the chunk list held before the start is not part of it. *)
Theorem recording_is_downloaded (env : Browser) (topicId : jsstring)
  (page : Mounted) (s : MediaStream) (datas : list Blob) :
  stream (hooks page) = Some s ->
  isRecording (hooks page) = false ->
  let started := step env topicId page ClickButton in
  let recorded := fold_left (step env topicId)
                            (map DataAvailable datas) started in
  let blob := {| blob_bytes := concat (map blob_bytes datas);
                 blob_type := lit "video/webm" |} in
  let url := createObjectURL env blob in
  filter is_download_step (handle env topicId recorded ClickButton)
  = if existsb (fun data => 0 <? size data) datas
    then [ UrlCreateObjectURL blob url;
           AnchorClick url (lit "recording.webm");
           UrlRevokeObjectURL url ]
    else [].
Proof.
  intros Hs Hidle. cbv zeta.
  assert (Hstart : hooks (step env topicId page ClickButton)
                   = commit (startRecording env topicId (hooks page)) (hooks page)).
  { rewrite hooks_step. cbn [handle]. rewrite Hidle. reflexivity. }
  rewrite (commit_startRecording env topicId (hooks page) s Hs) in Hstart.
  assert (Hrecorder : mediaRecorder (hooks (step env topicId page ClickButton))
                      = Some {| recorder_stream := s |}).
  { rewrite Hstart. destruct (has_webkitSpeechRecognition env); reflexivity. }
  pose proof (collect_fold env topicId datas _ _ Hrecorder) as Hfold.
  cbn [handle]. rewrite Hfold, Hstart.
  rewrite filter_nil_existsb.
  destruct (has_webkitSpeechRecognition env); cbn [apply_action isRecording
    currentPrompt stream mediaRecorder recordedChunks transcription
    recognitionRef app]; rewrite download_steps;
    cbn [recordedChunks]; unfold new_Blob; rewrite bytes_of_nonempty;
    destruct (filter (fun data => 0 <? size data) datas); reflexivity.
Qed.

(** *** Without a stream *)

Lemma clicks_leave_page (env : Browser) (topicId : jsstring) (n : nat)
  (page : Mounted) :
  stream (hooks page) = None ->
  isRecording (hooks page) = false ->
  fold_left (step env topicId) (repeat ClickButton n) page = page.
Proof.
  intros Hs Hidle. induction n as [|n IH]; [reflexivity|].
  cbn [repeat fold_left].
  rewrite (SessionTheory.click_without_stream env topicId page Hs Hidle).
  exact IH.
Qed.

(** X13.  Before the stream is there, and for good when the acquisition
    fails, the button does nothing however often it is pressed: the page
    stays in its first state, and the only thing done is the one log of
    the acquisition error. *)
Theorem button_is_dead_without_stream (env : Browser) (topicId : jsstring)
  (n : nat) (e : js_error) :
  run env topicId (repeat ClickButton n) = mount
  /\ run env topicId (MediaSettled (inl e) :: repeat ClickButton n)
     = {| hooks := initial_hooks;
          effect_render := initial_hooks;
          history := [ConsoleError (lit "Error accessing media devices:") e] |}.
Proof.
  split.
  - unfold run. apply clicks_leave_page; reflexivity.
  - unfold run. cbn [fold_left]. apply clicks_leave_page; reflexivity.
Qed.

(** *** What holds after every history *)

(** X14.  After any history of the page: when it is recording it has its
    stream and a recorder; a recognizer in the ref is configured
    continuous, without interim results, for the topic of the page, and
    exists only in a browser with the capability; and while there is no
    stream, nothing is recording and nothing has been collected. *)
Theorem recording_has_stream_and_recorder (env : Browser) (topicId : jsstring)
  (inputs : list Input) :
  let h := hooks (run env topicId inputs) in
  (isRecording h = true -> stream h <> None /\ mediaRecorder h <> None)
  /\ (forall r, recognitionRef h = Some r ->
                r = {| continuous := true; interimResults := false;
                       onresult_topicId := topicId |}
                /\ has_webkitSpeechRecognition env = true)
  /\ (stream h = None ->
      isRecording h = false /\ mediaRecorder h = None
      /\ recognitionRef h = None /\ recordedChunks h = []
      /\ transcription h = []).
Proof.
  cbv zeta. destruct (invariant_run env topicId inputs) as [H1 [H2 [_ H4]]].
  split; [exact H1|]. split; [exact H2 | exact H4].
Qed.

(** X15.  After any history, pressing the button while recording stops
    the recorder of the page and, in a browser with the capability, the
    recognizer; the page is idle afterwards. *)
Theorem stop_stops_what_runs (env : Browser) (topicId : jsstring)
  (inputs : list Input) :
  let page := run env topicId inputs in
  isRecording (hooks page) = true ->
  (exists r, mediaRecorder (hooks page) = Some r
             /\ In (RecorderStop r) (handle env topicId page ClickButton))
  /\ (has_webkitSpeechRecognition env = true ->
      In (RecognitionStop {| continuous := true; interimResults := false;
                             onresult_topicId := topicId |})
         (handle env topicId page ClickButton))
  /\ isRecording (hooks (step env topicId page ClickButton)) = false.
Proof.
  cbv zeta. intros Hrec.
  destruct (invariant_run env topicId inputs) as [H1 [H2 [H3 _]]].
  destruct (H1 Hrec) as [_ Hrecorder].
  rewrite hooks_step. cbn [handle]. rewrite Hrec.
  rewrite commit_stopRecording. unfold stopRecording.
  destruct (mediaRecorder (hooks (run env topicId inputs))) as [r|];
    [|congruence].
  split; [|split; [|reflexivity]].
  - exists r. split; [reflexivity|]. left. reflexivity.
  - intros Hcap. specialize (H3 Hrec Hcap).
    destruct (recognitionRef (hooks (run env topicId inputs))) as [g|] eqn:Hg;
      [|congruence].
    destruct (H2 g eq_refl) as [-> _]. right. left. reflexivity.
Qed.

(** X16.  [stopRecording] changes two cells only: the recording flag and
    the displayed prompt.  The chunk list and the transcript are kept as
    they are (until the next start), as are the stream, the recorder and
    the ref. *)
Theorem stop_keeps_chunks_and_transcript (env : Browser) (render : Hooks) :
  let after := commit (stopRecording env render) render in
  isRecording after = false
  /\ currentPrompt after
     = JString (lit "Recording stopped. Review your performance!")
  /\ recordedChunks after = recordedChunks render
  /\ transcription after = transcription render
  /\ stream after = stream render
  /\ mediaRecorder after = mediaRecorder render
  /\ recognitionRef after = recognitionRef render.
Proof. cbv zeta. rewrite commit_stopRecording. repeat split. Qed.

(** *** Replies *)

Lemma step_reply (env : Browser) (topicId : jsstring) (page : Mounted)
  (data p : json) :
  own_prop data Relay.prompt_key = Some p ->
  truthy_json p = true ->
  hooks (step env topicId page (FetchSettled (inr data)))
  = apply_action (SetCurrentPrompt p) (hooks page).
Proof.
  intros Hp Htruthy. rewrite hooks_step. cbn [handle].
  destruct (SessionTheory.fetch_settled_prompt data p (hooks page) Hp Htruthy)
    as [-> _].
  reflexivity.
Qed.

(** X17.  A reply whose prompt is a non-empty string is shown whenever
    it arrives: the page does not look at the recording flag or at which
    request the reply answers.  Of two such replies the one that arrives
    later is the one left on display, and one that arrives after the stop
    replaces the stopped message. *)
Theorem last_reply_wins (env : Browser) (topicId : jsstring) (page : Mounted)
  (d1 d2 : json) (s1 s2 : jsstring) :
  own_prop d1 (lit "prompt") = Some (JString s1) -> s1 <> [] ->
  own_prop d2 (lit "prompt") = Some (JString s2) -> s2 <> [] ->
  let first := step env topicId page (FetchSettled (inr d1)) in
  let second := step env topicId first (FetchSettled (inr d2)) in
  currentPrompt (hooks first) = JString s1
  /\ currentPrompt (hooks second) = JString s2
  /\ isRecording (hooks second) = isRecording (hooks page)
  /\ (isRecording (hooks page) = true ->
      let halted := step env topicId page ClickButton in
      currentPrompt (hooks halted)
      = JString (lit "Recording stopped. Review your performance!")
      /\ currentPrompt (hooks (step env topicId halted (FetchSettled (inr d1))))
         = JString s1
      /\ isRecording (hooks (step env topicId halted (FetchSettled (inr d1))))
         = false).
Proof.
  intros Hp1 Hne1 Hp2 Hne2. cbv zeta.
  assert (Ht1 : truthy_json (JString s1) = true)
    by (destruct s1; [congruence | reflexivity]).
  assert (Ht2 : truthy_json (JString s2) = true)
    by (destruct s2; [congruence | reflexivity]).
  rewrite !(step_reply env topicId _ d2 (JString s2) Hp2 Ht2).
  rewrite !(step_reply env topicId _ d1 (JString s1) Hp1 Ht1).
  split; [reflexivity|]. split; [reflexivity|]. split; [reflexivity|].
  intros Hrec. rewrite hooks_step. cbn [handle]. rewrite Hrec.
  rewrite commit_stopRecording. repeat split.
Qed.

(** X10.  The reply handler tests [data.prompt] for truthiness, not for
    presence.  A reply whose [prompt] is present but is the empty string,
    [null], [false] or a zero does nothing, and neither does a reply
    (other than [null]) without a [prompt]: the display keeps what it
    showed. *)
Theorem falsy_prompt_is_ignored (data : json) (h : Hooks) :
  data <> JNull ->
  own_prop data (lit "prompt") = None
  \/ (exists p, own_prop data (lit "prompt") = Some p
                 /\ (p = JString [] \/ Relay.falsy_non_string p)) ->
  fetch_settled (inr data) = []
  /\ commit (fetch_settled (inr data)) h = h.
Proof.
  intros Hnull Hprompt.
  assert (Hfalsy : truthy (own_prop data Relay.prompt_key) = false).
  { change (lit "prompt") with Relay.prompt_key in Hprompt.
    destruct Hprompt as [->|[p [-> Hp]]]; [reflexivity|].
    destruct Hp as [->|[->|[->|[sign ->]]]]; reflexivity. }
  assert (Hnone : fetch_settled (inr data) = []).
  { unfold fetch_settled. destruct data; try reflexivity; [congruence|].
    destruct (own_prop (JObject members) Relay.prompt_key) as [p|];
      [|reflexivity].
    cbn [truthy] in Hfalsy. rewrite Hfalsy. reflexivity. }
  rewrite Hnone. split; reflexivity.
Qed.

(** X18.  An exchange that fails leaves the page as it is.  For every
    answer of the relay other than a 200, the reply handler does
    nothing; when [fetch] or [res.json()] rejects it logs that error
    under ["Error fetching prompt:"], when the reply is [null] it logs a
    [TypeError] under the same label, and in both cases it does nothing
    else. *)
Theorem failed_exchange_changes_nothing (T : json -> settled jsstring)
  (service : Relay.PromptService) (request : Relay.NextRequest)
  (response : Relay.NextResponse) (e : js_error) (h : Hooks) :
  Relay.response_of (Relay.POST T service request) = inr response ->
  Relay.status response <> 200%N ->
  fetch_settled (inr (Relay.body response)) = []
  /\ fetch_settled (inl e) = [ConsoleError (lit "Error fetching prompt:") e]
  /\ commit (fetch_settled (inl e)) h = h
  /\ (exists thrown,
        fetch_settled (inr JNull)
        = [ConsoleError (lit "Error fetching prompt:") thrown]
        /\ error_name thrown = lit "TypeError")
  /\ commit (fetch_settled (inr JNull)) h = h.
Proof.
  unfold Relay.response_of. intros Hresp Hstatus.
  split; [|split; [reflexivity|]; split; [reflexivity|]; split; [|reflexivity]].
  - destruct (RelayBehaviour.POST_outcomes T service request)
      as [H|[[e0 H]|[[t [p [e0 [_ H]]]]|[t [p [c [_ H]]]]]]];
      rewrite H in Hresp; cbn [snd] in Hresp; injection Hresp as <-;
      try reflexivity.
    exfalso. apply Hstatus. reflexivity.
  - exists data_prompt_error. split; reflexivity.
Qed.

(** *** An utterance, from the recognizer to the display *)

Lemma relay_request_fields (transcript topicId : jsstring) :
  own_prop (init_body (relay_request transcript topicId)) Relay.transcription_key
  = Some (JString transcript)
  /\ own_prop (init_body (relay_request transcript topicId)) Relay.topic_key
     = Some (JString topicId).
Proof. split; reflexivity. Qed.

(** X19.  The request [onresult] sends for a transcript, answered by
    this relay, and the answer given to the reply handler.  With an
    empty transcript the relay answers 400 with the missing-field error
    without calling the service, and the page is unchanged.  With a
    non-empty transcript (and topic) the relay calls the service once,
    with exactly that transcript and topic; when the service throws, the
    relay answers 500 with the generic error; whenever the answer is a
    200, its prompt is a non-empty string, the displayed prompt becomes
    that string and no other cell changes; whenever it is not, the page
    is unchanged. *)
Theorem utterance_round_trip (T : json -> settled jsstring)
  (service : Relay.PromptService) (topicId transcript : jsstring) (h : Hooks) :
  topicId <> [] ->
  let request :=
    {| Relay.request_json := inr (init_body (relay_request transcript topicId)) |} in
  exists response,
    Relay.response_of (Relay.POST T service request) = inr response
    /\ match transcript with
       | [] =>
           response
           = {| Relay.status := 400;
                Relay.body :=
                  JObject [(lit "error",
                            JString (lit "Missing transcription or topic"))] |}
           /\ Relay.calls_of (Relay.POST T service request) = []
           /\ commit (fetch_settled (inr (Relay.body response))) h = h
       | _ :: _ =>
           Relay.calls_of (Relay.POST T service request)
           = [Relay.chat_params transcript topicId]
           /\ (forall e,
                 service (Relay.chat_params transcript topicId) = inl e ->
                 response
                 = {| Relay.status := 500;
                      Relay.body :=
                        JObject [(lit "error",
                                  JString (lit "Failed to generate prompt"))] |})
           /\ (Relay.status response = 200%N ->
               exists s,
                 s <> []
                 /\ Relay.body response = JObject [(lit "prompt", JString s)]
                 /\ commit (fetch_settled (inr (Relay.body response))) h
                    = apply_action (SetCurrentPrompt (JString s)) h)
           /\ (Relay.status response <> 200%N ->
               commit (fetch_settled (inr (Relay.body response))) h = h)
       end.
Proof.
  intros Htopic. cbv zeta.
  destruct (relay_request_fields transcript topicId) as [Ht Hp].
  destruct transcript as [|c rest].
  - assert (Hrun : Relay.POST T service
             {| Relay.request_json := inr (init_body (relay_request [] topicId)) |}
           = ([], inr (Relay.NextResponse_json
                         (Relay.error_body Relay.missing_message) (Some 400%N)))).
    { apply (RelayTheory.POST_falsy T service _
               (init_body (relay_request [] topicId))).
      - reflexivity.
      - discriminate.
      - left. rewrite Ht. reflexivity. }
    unfold Relay.calls_of, Relay.response_of. rewrite Hrun.
    eexists. split; [reflexivity|]. repeat split.
  - assert (Hne : c :: rest <> []) by discriminate.
    assert (Hrun := RelayTheory.POST_valid T service
             {| Relay.request_json :=
                  inr (init_body (relay_request (c :: rest) topicId)) |}
             (init_body (relay_request (c :: rest) topicId))
             (c :: rest) topicId eq_refl (conj Ht Hne) (conj Hp Htopic)).
    unfold Relay.calls_of, Relay.response_of. rewrite Hrun.
    destruct (service (Relay.chat_params (c :: rest) topicId)) as [e|completion].
    + eexists. split; [reflexivity|]. split; [reflexivity|].
      split; [intros e0 _; reflexivity|].
      split; [intros H; discriminate H | intros _; reflexivity].
    + eexists. split; [reflexivity|]. split; [reflexivity|].
      split; [intros e0 H; discriminate H|].
      split; [|intros H; exfalso; apply H; reflexivity].
      intros _. exists (Relay.aiPrompt completion).
      pose proof (RelayTheory.aiPrompt_nonempty completion) as Hprompt.
      split; [exact Hprompt|]. split; [reflexivity|].
      cbn [snd Relay.body Relay.NextResponse_json].
      unfold fetch_settled, Relay.prompt_body.
      cbn [own_prop lookup_member].
      replace (jsstring_eqb Relay.prompt_key Relay.prompt_key) with true
        by reflexivity.
      cbn [truthy_json].
      destruct (Relay.aiPrompt completion); [congruence | reflexivity].
Qed.

(** *** What never shrinks, what is never done *)

(** X20.  The transcript and the chunk list only grow, except at a
    start: every input other than a press of the button that starts a
    recording leaves the old transcript as a prefix of the new one and
    the old chunk list as a prefix of the new one. *)
Theorem transcript_and_chunks_only_grow (env : Browser) (topicId : jsstring)
  (page : Mounted) (i : Input) :
  (i = ClickButton ->
   isRecording (hooks page) = true \/ stream (hooks page) = None) ->
  exists text chunks,
    transcription (hooks (step env topicId page i))
    = transcription (hooks page) ++ text
    /\ recordedChunks (hooks (step env topicId page i))
       = recordedChunks (hooks page) ++ chunks.
Proof.
  intros Hnot_start. rewrite hooks_step.
  assert (Hsame : forall h : Hooks,
            transcription h = transcription h ++ []
            /\ recordedChunks h = recordedChunks h ++ []).
  { intros h. rewrite !app_nil_r. split; reflexivity. }
  destruct i as [acquired| |data|event|reply]; cbn [handle].
  - exists [], []. rewrite commit_getMedia.
    destruct acquired; [apply Hsame|].
    destruct (hooks page); cbn. rewrite !app_nil_r. split; reflexivity.
  - exists [], []. destruct (isRecording (hooks page)) eqn:Hrec.
    + rewrite commit_stopRecording. cbn. apply Hsame.
    + destruct (Hnot_start eq_refl) as [H|H]; [discriminate H|].
      unfold startRecording. rewrite H. apply Hsame.
  - destruct (mediaRecorder (hooks page)); [|exists [], []; apply Hsame].
    rewrite commit_ondataavailable. destruct (0 <? size data).
    + exists [], [data]. destruct (hooks page); cbn.
      rewrite app_nil_r. split; reflexivity.
    + exists [], []. apply Hsame.
  - destruct (recognitionRef (hooks page)); [|exists [], []; apply Hsame].
    rewrite commit_onresult.
    exists (concat (map (fun r => transcript (alternative0 r))
                        (new_finals event))), [].
    destruct (hooks page); cbn. rewrite app_nil_r. split; reflexivity.
  - exists [], []. destruct (commit_fetch_settled reply (hooks page)) as [v ->].
    destruct (hooks page); cbn. rewrite !app_nil_r. split; reflexivity.
Qed.

(** X21.  After any history, leaving the page does nothing at all: the
    cleanup of the effect performs no call, so neither the recorder nor
    the recognizer is stopped by it, and no track of any stream has been
    stopped, by it or by any handler before it. *)
Theorem leaving_releases_nothing (env : Browser) (topicId : jsstring)
  (inputs : list Input) :
  let page := run env topicId inputs in
  unmount page = []
  /\ forall t, stopped t (history page ++ unmount page) = false.
Proof.
  cbv zeta. split.
  - apply SessionTheory.unmount_run.
  - intros t. apply (SessionTheory.tracks_never_stopped env topicId inputs t).
Qed.

(** An action that is in none of the places of an explicit list. *)
Ltac no_such_action H :=
  cbn [app In] in H;
  repeat (destruct H as [H|H]; [discriminate H|]); contradiction H.

(** A handler sends requests to the relay only, for the topic of the
    page. *)
Lemma handle_fetch (env : Browser) (topicId : jsstring) (c : Mounted)
  (i : Input) (url : jsstring) (init : RequestInit) :
  session_invariant env topicId (hooks c) ->
  In (Fetch url init) (handle env topicId c i) ->
  exists transcript,
    url = relay_url /\ init = relay_request transcript topicId.
Proof.
  intros Hinv Hin.
  destruct i as [acquired| |data|event|reply]; cbn [handle] in Hin.
  - unfold getMedia in Hin. destruct acquired as [e|ms].
    + no_such_action Hin.
    + destruct (videoRef_current env); no_such_action Hin.
  - destruct (isRecording (hooks c)).
    + unfold stopRecording in Hin.
      destruct (mediaRecorder (hooks c)), (recognitionRef (hooks c)),
        (0 <? length (recordedChunks (hooks c)));
        no_such_action Hin.
    + unfold startRecording in Hin.
      destruct (stream (hooks c)); [|contradiction Hin].
      destruct (has_webkitSpeechRecognition env);
        no_such_action Hin.
  - destruct (mediaRecorder (hooks c)); [|contradiction Hin].
    unfold ondataavailable in Hin.
    destruct (0 <? size data); no_such_action Hin.
  - destruct (recognitionRef (hooks c)) as [r|] eqn:Href; [|contradiction Hin].
    destruct Hinv as [_ [H2 _]]. destruct (H2 r Href) as [-> _].
    cbn [onresult_topicId] in Hin.
    rewrite SessionTheory.onresult_spec in Hin. apply in_flat_map in Hin.
    destruct Hin as [result [_ Hin]]. unfold relay_result in Hin.
    destruct Hin as [H|[H|[]]]; [discriminate H|].
    injection H as <- <-. eexists. split; reflexivity.
  - unfold fetch_settled in Hin. destruct reply as [e|data].
    + no_such_action Hin.
    + destruct data; try no_such_action Hin.
      destruct (own_prop (JObject members) Relay.prompt_key) as [p|];
        [|contradiction Hin].
      destruct (truthy_json p); no_such_action Hin.
Qed.

Lemma history_fetch (env : Browser) (topicId : jsstring) (inputs : list Input) :
  forall c : Mounted,
    session_invariant env topicId (hooks c) ->
    (forall url init, In (Fetch url init) (history c) ->
                      exists transcript,
                        url = relay_url
                        /\ init = relay_request transcript topicId) ->
    forall url init,
      In (Fetch url init) (history (fold_left (step env topicId) inputs c)) ->
      exists transcript,
        url = relay_url /\ init = relay_request transcript topicId.
Proof.
  induction inputs as [|i inputs IH]; intros c Hinv Hhist; [exact Hhist|].
  cbn [fold_left]. apply IH.
  - apply invariant_step. exact Hinv.
  - intros url init Hin. rewrite history_step in Hin.
    apply in_app_or in Hin. destruct Hin as [Hin|Hin].
    + apply Hhist. exact Hin.
    + apply (handle_fetch env topicId c i url init Hinv Hin).
Qed.

(** X22.  After any history, every request the page has sent went to
    [/api/generate-prompt] by POST with a JSON content type, and its body
    holds a transcript and the topic of the page: the page sends nothing
    else, and never another topic. *)
Theorem requests_go_to_relay (env : Browser) (topicId : jsstring)
  (inputs : list Input) (url : jsstring) (init : RequestInit) :
  In (Fetch url init) (history (run env topicId inputs)) ->
  url = lit "/api/generate-prompt"
  /\ method init = lit "POST"
  /\ headers init = [(lit "Content-Type", lit "application/json")]
  /\ exists transcript,
       init_body init
       = JObject [ (lit "transcription", JString transcript);
                   (lit "topic", JString topicId) ].
Proof.
  intros Hin. unfold run in Hin.
  destruct (history_fetch env topicId inputs mount
              (invariant_mount env topicId)
              (fun url init (H : In (Fetch url init) []) => match H with end)
              url init Hin) as [transcript [-> ->]].
  repeat split. exists transcript. reflexivity.
Qed.

(** *** The statements at sample pages *)

Lemma chunks_collected_in_order_witness :
  recordedChunks
    (hooks (fold_left (step chrome debate)
              (map DataAvailable [chunk1; empty_chunk; chunk2])
              (run chrome debate [MediaSettled (inr webcam); ClickButton])))
  = [chunk1; chunk2].
Proof.
  destruct (chunks_collected_in_order chrome debate
              (run chrome debate [MediaSettled (inr webcam); ClickButton])
              {| recorder_stream := webcam |}
              [chunk1; empty_chunk; chunk2] eq_refl) as [H _].
  exact H.
Defined.

Lemma recording_is_downloaded_witness :
  filter is_download_step
    (handle chrome debate
       (fold_left (step chrome debate)
          (map DataAvailable [chunk1; empty_chunk; chunk2])
          (step chrome debate (run chrome debate [MediaSettled (inr webcam)])
                ClickButton))
       ClickButton)
  = [ UrlCreateObjectURL
        {| blob_bytes := [x1a; x45; xdf; xa3; x1f; x43; xb6];
           blob_type := lit "video/webm" |}
        (lit "blob:http://localhost:3000/0f3c");
      AnchorClick (lit "blob:http://localhost:3000/0f3c") (lit "recording.webm");
      UrlRevokeObjectURL (lit "blob:http://localhost:3000/0f3c") ].
Proof.
  exact (recording_is_downloaded chrome debate
           (run chrome debate [MediaSettled (inr webcam)]) webcam
           [chunk1; empty_chunk; chunk2] eq_refl eq_refl).
Defined.

Lemma stop_stops_what_runs_witness :
  In (RecorderStop {| recorder_stream := webcam |})
     (handle chrome debate
        (run chrome debate [MediaSettled (inr webcam); ClickButton])
        ClickButton)
  /\ In (RecognitionStop {| continuous := true; interimResults := false;
                            onresult_topicId := debate |})
        (handle chrome debate
           (run chrome debate [MediaSettled (inr webcam); ClickButton])
           ClickButton).
Proof.
  destruct (stop_stops_what_runs chrome debate
              [MediaSettled (inr webcam); ClickButton] eq_refl)
    as [[r [Hr Hin]] [Hrecognizer _]].
  split.
  - injection Hr as <-. exact Hin.
  - apply Hrecognizer. reflexivity.
Defined.

Lemma last_reply_wins_witness :
  currentPrompt
    (hooks (step chrome debate
              (step chrome debate
                 (run chrome debate [MediaSettled (inr webcam); ClickButton])
                 (FetchSettled (inr coach_reply)))
              (FetchSettled (inr late_reply))))
  = JString (lit "Slow down a little.").
Proof.
  assert (Hne1 : lit "Give one concrete example." <> []) by discriminate.
  assert (Hne2 : lit "Slow down a little." <> []) by discriminate.
  destruct (last_reply_wins chrome debate
              (run chrome debate [MediaSettled (inr webcam); ClickButton])
              coach_reply late_reply
              (lit "Give one concrete example.")
              (lit "Slow down a little.")
              eq_refl Hne1 eq_refl Hne2) as [_ [H _]].
  exact H.
Defined.

Lemma falsy_prompt_is_ignored_witness :
  fetch_settled (inr (JObject [(lit "prompt", JString [])])) = []
  /\ commit (fetch_settled (inr (JObject [(lit "prompt", JString [])])))
            recording_hooks
     = recording_hooks.
Proof.
  apply (falsy_prompt_is_ignored (JObject [(lit "prompt", JString [])])
           recording_hooks).
  - discriminate.
  - right. exists (JString []). split; [reflexivity | left; reflexivity].
Defined.

Lemma failed_exchange_changes_nothing_witness :
  fetch_settled
    (inr (JObject [(lit "error", JString (lit "Failed to generate prompt"))]))
  = [].
Proof.
  destruct (failed_exchange_changes_nothing Relay.no_coercion
              Relay.failing_service Relay.interview_request
              {| Relay.status := 500;
                 Relay.body :=
                   JObject [(lit "error",
                             JString (lit "Failed to generate prompt"))] |}
              media_denied recording_hooks eq_refl) as [H _].
  - discriminate.
  - exact H.
Defined.

Lemma utterance_round_trip_witness :
  Relay.calls_of
    (Relay.POST Relay.no_coercion Relay.elaborating_service
       {| Relay.request_json :=
            inr (init_body (relay_request (lit "that taxes ") debate)) |})
  = [Relay.chat_params (lit "that taxes ") debate]
  /\ currentPrompt
       (commit
          (fetch_settled
             (inr (JObject [(lit "prompt",
                             JString (lit "Can you elaborate on a specific project?"))])))
          recording_hooks)
     = JString (lit "Can you elaborate on a specific project?").
Proof.
  assert (Htopic : debate <> []) by discriminate.
  destruct (utterance_round_trip Relay.no_coercion Relay.elaborating_service
              debate (lit "that taxes ") recording_hooks Htopic)
    as [response [Hresponse [Hcalls [_ [Hshown _]]]]].
  split; [exact Hcalls|].
  assert (Hanswer :
            response
            = {| Relay.status := 200;
                 Relay.body :=
                   JObject [(lit "prompt",
                             JString (lit "Can you elaborate on a specific project?"))] |}).
  { vm_compute in Hresponse. injection Hresponse as <-. reflexivity. }
  rewrite Hanswer in Hshown.
  destruct (Hshown eq_refl) as [s [_ [Hbody Hcommit]]].
  cbn [Relay.body] in Hbody, Hcommit. injection Hbody as <-.
  exact (f_equal currentPrompt Hcommit).
Defined.

Lemma transcript_and_chunks_only_grow_witness :
  exists text chunks,
    transcription
      (hooks (step chrome debate
                (run chrome debate [MediaSettled (inr webcam); ClickButton])
                (Result two_new_results)))
    = transcription
        (hooks (run chrome debate [MediaSettled (inr webcam); ClickButton]))
      ++ text
    /\ recordedChunks
         (hooks (step chrome debate
                   (run chrome debate [MediaSettled (inr webcam); ClickButton])
                   (Result two_new_results)))
       = recordedChunks
           (hooks (run chrome debate [MediaSettled (inr webcam); ClickButton]))
         ++ chunks.
Proof.
  apply (transcript_and_chunks_only_grow chrome debate
           (run chrome debate [MediaSettled (inr webcam); ClickButton])
           (Result two_new_results)).
  intros H. discriminate H.
Defined.

Lemma requests_go_to_relay_witness :
  In (Fetch relay_url (relay_request (lit "that taxes ") debate))
     (history (run chrome debate one_utterance))
  /\ method (relay_request (lit "that taxes ") debate) = lit "POST"
  /\ exists transcript,
       init_body (relay_request (lit "that taxes ") debate)
       = JObject [ (lit "transcription", JString transcript);
                   (lit "topic", JString debate) ].
Proof.
  assert (Hsent : In (Fetch relay_url (relay_request (lit "that taxes ") debate))
                     (history (run chrome debate one_utterance))).
  { cbn. repeat (first [left; reflexivity | right]). }
  destruct (requests_go_to_relay chrome debate one_utterance relay_url
              (relay_request (lit "that taxes ") debate) Hsent)
    as [_ [Hmethod [_ Hbody]]].
  split; [exact Hsent|]. split; [exact Hmethod | exact Hbody].
Defined.

End SessionBehaviour.
